(** * GSTools [gstools/covmodel/tools.py]: helper functions of the covariance model

    A shallow embedding of [rad_fac], [set_len_anis], [check_bounds],
    [check_arg_in_bounds] and [default_arg_from_bounds], and the properties
    that hold of them.

    Numbers.  Python floats and numpy doubles are IEEE 754 binary64 values and
    are modelled by Rocq's primitive [float], so the infinities, NaN and
    division by zero behave as they do in the program.  Integer literals that
    the program compares or combines with floats (the [0] and [1] of a bound
    pair) denote the corresponding doubles.  In [rad_fac] the powers and the
    Gamma function, which numpy and scipy compute, are parameters.

    Objects.  Entries of a bound tuple are dynamically typed: a number or a
    string ([pyobj]).  Python exceptions are values of [error], and a function
    that can raise returns a [result]. *)

From Stdlib Require Import Floats ZArith List String Ascii Lia.
From stdpp Require Import base option gmap list strings.

Local Open Scope Z_scope.

(** ** Python values, exceptions and results *)

Inductive pyobj : Type :=
| PyFloat (x : float)
| PyStr (s : string).

(** The exceptions the functions of this file can raise.  The program raises
    [ValueError] with two different messages; they are told apart here:
    [InvalidAnisotropy] is "anisotropy-ratios needs to be > 0, got: ..." and
    carries the ratio list printed in the message, [UnknownArgument] is
    "check bounds: unknown argument: ...".  [NegativeDimensions] is the
    [ValueError] of [np.zeros] on a negative length, [PadEmpty] the one of
    [np.pad] in edge mode on an empty array, [SetAnisRaised] any exception
    coming out of [set_anis].  [DanglingReference] cannot arise in Python: it
    is the result of reading a location the heap does not hold. *)
Inductive error : Type :=
| IndexError
| TypeError
| AttributeError (name : string)
| NegativeDimensions
| PadEmpty
| SetAnisRaised
| InvalidAnisotropy (ratios : list float)
| UnknownArgument (arg : string)
| DanglingReference.

Inductive result (A : Type) : Type :=
| Ok (a : A)
| Err (e : error).
Arguments Ok {A} a.
Arguments Err {A} e.

#[global] Instance result_ret : MRet result := @Ok.
#[global] Instance result_bind : MBind result := λ A B k r,
  match r with
  | Ok a => k a
  | Err e => Err e
  end.

(** [l[i]] for a non-negative index. *)
Definition index {A : Type} (l : list A) (i : nat) : result A :=
  match l !! i with
  | Some x => Ok x
  | None => Err IndexError
  end.

(** ** Comparison and arithmetic of Python objects

    Two floats compare as IEEE doubles, two strings lexicographically; a
    number and a string do not compare ([TypeError]).  [==] never raises. *)

Definition py_lt (a b : pyobj) : result bool :=
  match a, b with
  | PyFloat x, PyFloat y => Ok (PrimFloat.ltb x y)
  | PyStr s, PyStr t => Ok (String.ltb s t)
  | _, _ => Err TypeError
  end.

Definition py_le (a b : pyobj) : result bool :=
  match a, b with
  | PyFloat x, PyFloat y => Ok (PrimFloat.leb x y)
  | PyStr s, PyStr t => Ok (String.leb s t)
  | _, _ => Err TypeError
  end.

Definition py_gt (a b : pyobj) : result bool := py_lt b a.
Definition py_ge (a b : pyobj) : result bool := py_le b a.

Definition py_eq (a b : pyobj) : bool :=
  match a, b with
  | PyFloat x, PyFloat y => PrimFloat.eqb x y
  | PyStr s, PyStr t => String.eqb s t
  | _, _ => false
  end.

(** [a in t] for a tuple [t]. *)
Definition py_in (a : pyobj) (t : list pyobj) : bool := existsb (py_eq a) t.

(** [o[i]]: the one-character string at position [i] of a string. *)
Definition py_getitem (o : pyobj) (i : nat) : result pyobj :=
  match o with
  | PyStr s =>
      match String.get i s with
      | Some c => Ok (PyStr (String c EmptyString))
      | None => Err IndexError
      end
  | PyFloat _ => Err TypeError
  end.

Definition py_add (a b : pyobj) : result pyobj :=
  match a, b with
  | PyFloat x, PyFloat y => Ok (PyFloat (PrimFloat.add x y))
  | PyStr s, PyStr t => Ok (PyStr (s ++ t))
  | _, _ => Err TypeError
  end.

Definition py_sub (a b : pyobj) : result pyobj :=
  match a, b with
  | PyFloat x, PyFloat y => Ok (PyFloat (PrimFloat.sub x y))
  | _, _ => Err TypeError
  end.

Definition py_div (a b : pyobj) : result pyobj :=
  match a, b with
  | PyFloat x, PyFloat y => Ok (PyFloat (PrimFloat.div x y))
  | _, _ => Err TypeError
  end.

(** ** [rad_fac]

    A numpy array of doubles is its shape and its entries in row-major order.
    Arithmetic between a number and an array, and a power of an array, act on
    every entry and keep the shape, so [rad_fac] never looks at the shape.  A
    Python number is not an array. *)

Record ndarray : Type := {
  shape : list nat;
  data : list float
}.

Inductive npvalue : Type :=
| Scalar (x : float)
| Array (a : ndarray).

(** An operation applied to every entry. *)
Definition elementwise (f : float → float) (a : ndarray) : ndarray :=
  {| shape := shape a; data := f <$> data a |}.

(** [np.full(sh, c)]: the constant [c] in every entry. *)
Definition full (sh : list nat) (c : float) : ndarray :=
  {| shape := sh; data := replicate (foldr Nat.mul 1%nat sh) c |}.

(** [np.pi], the double next to pi. *)
Definition np_pi : float := 0x1.921fb54442d18p+1%float.

(** An integer as a double, rounded to nearest: what Python and numpy do
    with [dim] in [dim / 2.0] and in [dim * r], for [dim] in the range of
    int64. *)
Definition float_of_int (n : Z) : float :=
  SF2Prim (binary_normalize prec emax n 0 false).

Section Numpy.
(** The functions of numpy and scipy that have no IEEE definition:
    [array_power x n] is the entry of [r ** n] at an entry [x] of the array
    [r], [scalar_power x n] is [x ** n] for a numpy double [x], both for a
    Python integer [n], and [gamma] is [scipy.special.gamma] on a double. *)
Variable array_power : float → Z → float.
Variable scalar_power : float → Z → float.
Variable gamma : float → float.

Definition rad_fac (dim : Z) (r : ndarray) : npvalue :=
  if dim =? 1 then Scalar 2
  else if dim =? 2 then
    Array (elementwise (λ x, PrimFloat.mul (PrimFloat.mul 2 np_pi) x) r)
  else if dim =? 3 then
    Array (elementwise
             (λ x, PrimFloat.mul (PrimFloat.mul 4 np_pi) (array_power x 2)) r)
  else
    Array (elementwise
             (λ x, PrimFloat.div
                     (PrimFloat.mul
                        (PrimFloat.mul (float_of_int dim)
                           (array_power x (dim - 1)))
                        (scalar_power (PrimFloat.sqrt np_pi) dim))
                     (gamma (PrimFloat.add
                               (PrimFloat.div (float_of_int dim) 2) 1))) r).
End Numpy.

(** ** [set_len_anis] *)

(** A [len_scale] or [anis] argument: a number or a flat list of numbers. *)
Inductive num_arg : Type :=
| Num (x : float)
| NumList (xs : list float).

(** [np.atleast_1d(np.array(len_scale, dtype=np.double))] *)
Definition atleast_1d (len_scale : num_arg) : list float :=
  match len_scale with
  | Num x => [x]
  | NumList xs => xs
  end.

(** [a[:n]]: the first [n] entries, or all but the last [-n] when [n] is
    negative. *)
Definition slice_to (n : Z) (a : list float) : list float :=
  if 0 <=? n then take (Z.to_nat n) a
  else take (length a - Z.to_nat (- n)) a.

(** [np.pad(a, (0, n), "edge")] *)
Definition pad_edge (a : list float) (n : nat) : result (list float) :=
  match last a with
  | Some e => Ok (a ++ replicate n e)
  | None => Err PadEmpty
  end.

(** [np.zeros(n, dtype=np.double)] *)
Definition zeros (n : Z) : result (list float) :=
  if n <? 0 then Err NegativeDimensions
  else Ok (replicate (Z.to_nat n) 0%float).

(** [range(1, dim)] *)
Definition range1 (dim : Z) : list nat := seq 1 (Z.to_nat dim - 1).

(** [a[i] = x] for a non-negative index. *)
Definition setitem (a : list float) (i : nat) (x : float) : result (list float) :=
  if (i <? length a)%nat then Ok (<[i := x]> a) else Err IndexError.

(** The loop [for i in range(1, dim): out_anis[i - 1] = ls_tmp[i] / ls_tmp[0]],
    over the indices that remain. *)
Fixpoint fill_anis (ls_tmp : list float) (rest : list nat) (out_anis : list float)
  : result (list float) :=
  match rest with
  | [] => Ok out_anis
  | i :: rest' =>
      li ← index ls_tmp i;
      l0 ← index ls_tmp 0;
      out_anis' ← setitem out_anis (i - 1) (PrimFloat.div li l0);
      fill_anis ls_tmp rest' out_anis'
  end.

(** The loop [for ani in out_anis: if not ani > 0.0: raise ValueError(...)],
    over the entries that remain; the message prints all of [out_anis]. *)
Fixpoint check_anis (out_anis rest : list float) : result () :=
  match rest with
  | [] => Ok ()
  | ani :: rest' =>
      if negb (PrimFloat.ltb 0 ani) then Err (InvalidAnisotropy out_anis)
      else check_anis out_anis rest'
  end.

Section SetLenAnis.
(** [set_anis] is imported from [gstools.tools.geometric]; it is a
    parameter here, over any type of [anis] arguments; [None] stands for
    an exception. *)
Context {Anis : Type}.
Variable set_anis : Z → Anis → option (list float).

(** Lines 130-144: the coerced and cut length scales and the anisotropy
    ratios before they are validated. *)
Definition len_scale_tmp (dim : Z) (len_scale : num_arg) : list float :=
  slice_to dim (atleast_1d len_scale).

Definition raw_anis (dim : Z) (len_scale : num_arg) (anis : Anis)
  : result (list float) :=
  let ls_tmp := len_scale_tmp dim len_scale in
  if (length ls_tmp =? 1)%nat then
    match set_anis dim anis with
    | Some out_anis => Ok out_anis
    | None => Err SetAnisRaised
    end
  else
    ls_tmp ← (if Z.of_nat (length ls_tmp) <? dim
              then pad_edge ls_tmp (Z.to_nat (dim - Z.of_nat (length ls_tmp)))
              else Ok ls_tmp);
    out_anis ← zeros (dim - 1);
    fill_anis ls_tmp (range1 dim) out_anis.

Definition set_len_anis (dim : Z) (len_scale : num_arg) (anis : Anis)
  : result (float * list float) :=
  let ls_tmp := len_scale_tmp dim len_scale in
  out_len_scale ← index ls_tmp 0;
  out_anis ← raw_anis dim len_scale anis;
  _ ← check_anis out_anis out_anis;
  Ok (out_len_scale, out_anis).
End SetLenAnis.

(** Modelled from the spec: the anisotropy-array constructor [set_anis] of
    [gstools.tools.geometric], which is not part of the source at hand.  It
    returns [dim - 1] ratios and "fills missing leading anisotropy values with
    1.0"; the given values are cut to [dim - 1] entries.  Used to run
    [set_len_anis] on concrete inputs. *)
Definition set_anis_model (dim : Z) (anis : num_arg) : option (list float) :=
  let out_anis := slice_to (dim - 1) (atleast_1d anis) in
  Some (replicate (Z.to_nat (dim - 1) - length out_anis) 1%float ++ out_anis).

(** ** [check_bounds] *)

Definition interval_types : list pyobj :=
  [PyStr "oo"; PyStr "oc"; PyStr "co"; PyStr "cc"].

Definition check_bounds (bounds : list pyobj) : result bool :=
  if negb ((length bounds =? 2)%nat || (length bounds =? 3)%nat) then Ok false
  else
    b1 ← index bounds 1;
    b0 ← index bounds 0;
    le ← py_le b1 b0;
    if le : bool then Ok false
    else if (length bounds =? 3)%nat then
      b2 ← index bounds 2;
      if negb (py_in b2 interval_types) then Ok false else Ok true
    else Ok true.

(** ** [check_arg_in_bounds]

    The bound tuples of a model are objects on the heap, and
    [model.arg_bounds] maps a name to a reference.  The function is a
    computation that may raise and that changes the heap. *)

Definition loc : Type := positive.
Abbreviation heap := (gmap loc (list pyobj)).

Record Model : Type := {
  arg_bounds : gmap string loc;
  attrs : gmap string pyobj
}.

Definition M (A : Type) : Type := heap → result A * heap.

#[global] Instance M_ret : MRet M := λ A a h, (Ok a, h).
#[global] Instance M_bind : MBind M := λ A B k m h,
  match m h with
  | (Ok a, h') => k a h'
  | (Err e, h') => (Err e, h')
  end.

Definition lift {A : Type} (r : result A) : M A := λ h, (r, h).
Definition raise {A : Type} (e : error) : M A := lift (Err e).

(** Reading the sequence a reference points to. *)
Definition deref (l : loc) : M (list pyobj) := λ h,
  match h !! l with
  | Some xs => (Ok xs, h)
  | None => (Err DanglingReference, h)
  end.

(** [list(xs)]: a new list object with the entries of [xs]. *)
Definition new_list (xs : list pyobj) : M loc := λ h,
  let l := fresh (dom h) in (Ok l, <[l := xs]> h).

(** [l.append(x)] *)
Definition append (l : loc) (x : pyobj) : M () := λ h,
  match h !! l with
  | Some xs => (Ok (), <[l := xs ++ [x]]> h)
  | None => (Err DanglingReference, h)
  end.

(** [l[i]] for a list object. *)
Definition getitem (l : loc) (i : nat) : M pyobj :=
  xs ← deref l; lift (index xs i).

(** [getattr(model, name)] *)
Definition getattr (model : Model) (name : string) : result pyobj :=
  match attrs model !! name with
  | Some v => Ok v
  | None => Err (AttributeError name)
  end.

(** [getattr(model, arg) if val is None else val] *)
Definition resolve_val (model : Model) (arg : string) (val : option pyobj)
  : result pyobj :=
  match val with
  | None => getattr model arg
  | Some v => Ok v
  end.

(** [bnd[2][k] == "c"] *)
Definition is_closed (bnd : loc) (k : nat) : M bool :=
  t ← getitem bnd 2;
  c ← lift (py_getitem t k);
  mret (py_eq c (PyStr "c")).

Definition check_arg_in_bounds (model : Model) (arg : string) (val : option pyobj)
  : M Z :=
  match arg_bounds model !! arg with
  | None => raise (UnknownArgument arg)
  | Some ref =>
      stored ← deref ref;
      bnd ← new_list stored;
      val ← lift (resolve_val model arg val);
      let error_case := 0 in
      cur ← deref bnd;
      _ ← (if (length cur =? 2)%nat then append bnd (PyStr "cc") else mret ());
      lower_closed ← is_closed bnd 0;
      error_case ←
        (if lower_closed : bool then
           b0 ← getitem bnd 0;
           c ← lift (py_lt val b0);
           mret (if c : bool then 1 else error_case)
         else
           b0 ← getitem bnd 0;
           c ← lift (py_le val b0);
           mret (if c : bool then 2 else error_case));
      upper_closed ← is_closed bnd 1;
      error_case ←
        (if upper_closed : bool then
           b1 ← getitem bnd 1;
           c ← lift (py_gt val b1);
           mret (if c : bool then 3 else error_case)
         else
           b1 ← getitem bnd 1;
           c ← lift (py_ge val b1);
           mret (if c : bool then 4 else error_case));
      mret error_case
  end.

(** ** [default_arg_from_bounds] *)

(** [bounds[0] > -np.inf and bounds[1] < np.inf]; [and] does not evaluate
    its second operand when the first is false. *)
Definition both_bounded (bounds : list pyobj) : result bool :=
  b0 ← index bounds 0;
  c0 ← py_gt b0 (PyFloat neg_infinity);
  if c0 : bool then
    b1 ← index bounds 1;
    py_lt b1 (PyFloat infinity)
  else Ok false.

Definition default_arg_from_bounds (bounds : list pyobj) : result pyobj :=
  both ← both_bounded bounds;
  if both : bool then
    b0 ← index bounds 0;
    b1 ← index bounds 1;
    s ← py_add b0 b1;
    py_div s (PyFloat 2)
  else
    b0 ← index bounds 0;
    c0 ← py_gt b0 (PyFloat neg_infinity);
    if c0 : bool then py_add b0 (PyFloat 1)
    else
      b1 ← index bounds 1;
      c1 ← py_lt b1 (PyFloat infinity);
      if c1 : bool then py_sub b1 (PyFloat 1)
      else Ok (PyFloat 0).

(** ** Vocabulary of the statements *)

(** A number compares with a number and a string with a string. *)
Definition comparable (a b : pyobj) : bool :=
  match a, b with
  | PyFloat _, PyFloat _ | PyStr _, PyStr _ => true
  | _, _ => false
  end.

Definition is_nan_obj (a : pyobj) : bool :=
  match a with
  | PyFloat x => is_nan x
  | PyStr _ => false
  end.

(** A stored bound tuple as the data model has it: two numbers, or two
    numbers and a tag of at least two characters.  [c0] and [c1] are the
    characters that stand for the lower and the upper endpoint, "c" and "c"
    when there is no tag. *)
Inductive bound_tuple : list pyobj → float → float → ascii → ascii → Prop :=
| bound_pair (lower upper : float) :
    bound_tuple [PyFloat lower; PyFloat upper] lower upper "c" "c"
| bound_triple (lower upper : float) (c0 c1 : ascii) (s : string) :
    bound_tuple [PyFloat lower; PyFloat upper; PyStr (String c0 (String c1 s))]
                lower upper c0 c1.

(** The tuple the checks read: the stored one, with "cc" added to a pair. *)
Definition with_default_type (t : list pyobj) : list pyobj :=
  if (length t =? 2)%nat then t ++ [PyStr "cc"] else t.

Definition is_c (c : ascii) : bool := Ascii.eqb c "c".

(** The lower check triggers: [val < lower] at a closed endpoint,
    [val <= lower] at an open one. *)
Definition lower_violated (c0 : ascii) (val lower : float) : bool :=
  if is_c c0 then PrimFloat.ltb val lower else PrimFloat.leb val lower.

(** The upper check triggers: [val > upper] at a closed endpoint,
    [val >= upper] at an open one. *)
Definition upper_violated (c1 : ascii) (val upper : float) : bool :=
  if is_c c1 then PrimFloat.ltb upper val else PrimFloat.leb upper val.

(** A computation that leaves the heap as it is and does not raise
    [UnknownArgument]. *)
Definition reads_only {A : Type} (m : M A) : Prop :=
  ∀ h, (m h).2 = h ∧ ∀ a, (m h).1 ≠ Err (UnknownArgument a).

(** A model with one argument ["x"], whose bound tuple is at location 1 and
    whose current value is 0.5, and the heap that holds the tuple. *)
Definition example_model : Model :=
  {| arg_bounds := {["x" := 1%positive]}; attrs := {["x" := PyFloat 0.5]} |}.

Definition example_heap (t : list pyobj) : heap := {[1%positive := t]}.

(** [val] lies in the interval from [lower] to [upper]; an endpoint belongs
    to the interval when its character is "c". *)
Definition in_interval (c0 c1 : ascii) (val lower upper : float) : bool :=
  (if is_c c0 then PrimFloat.leb lower val else PrimFloat.ltb lower val)
  && (if is_c c1 then PrimFloat.leb val upper else PrimFloat.ltb val upper).

(** * Properties *)

(** ** The order of binary64 values

    The comparison of primitive floats is specified on [spec_float] by
    [SFcompare]; the facts below are read off that specification. *)

Section FloatOrder.

Ltac cmp_cases :=
  repeat match goal with
  | H : context [PosDef.Pos.compare_cont Eq ?a ?b] |- _ =>
      change (PosDef.Pos.compare_cont Eq a b) with (Pos.compare a b) in H
  | |- context [PosDef.Pos.compare_cont Eq ?a ?b] =>
      change (PosDef.Pos.compare_cont Eq a b) with (Pos.compare a b)
  | H : context [(?a ?= ?b)%Z] |- _ =>
      destruct (Z.compare_spec a b); cbn in H; try discriminate H
  | H : context [(?a ?= ?b)%positive] |- _ =>
      destruct (Pos.compare_spec a b); cbn in H; try discriminate H
  | |- context [(?a ?= ?b)%Z] =>
      destruct (Z.compare_spec a b); cbn; try reflexivity
  | |- context [(?a ?= ?b)%positive] =>
      destruct (Pos.compare_spec a b); cbn; try reflexivity
  end; try lia.

Lemma SFleb_trans a b c :
  SFleb a b = true → SFleb b c = true → SFleb a c = true.
Proof.
  unfold SFleb.
  destruct a as [s1|s1| |s1 m1 e1], b as [s2|s2| |s2 m2 e2],
           c as [s3|s3| |s3 m3 e3];
    try destruct s1; try destruct s2; try destruct s3; cbn;
    try reflexivity; try discriminate; intros H1 H2; cmp_cases.
Qed.

Lemma SFltb_SFleb a b : SFltb a b = true → SFleb a b = true.
Proof. unfold SFltb, SFleb. destruct (SFcompare a b) as [[]|]; done. Qed.

Lemma SFleb_SFltb a b :
  a ≠ S754_nan → b ≠ S754_nan → negb (SFleb a b) = SFltb b a.
Proof.
  unfold SFleb, SFltb.
  destruct a as [s1|s1| |s1 m1 e1], b as [s2|s2| |s2 m2 e2];
    try destruct s1; try destruct s2; cbn; try reflexivity; try congruence;
    intros _ _; cmp_cases.
Qed.

Lemma SFeqb_refl a : a ≠ S754_nan → SFeqb a a = true.
Proof.
  unfold SFeqb.
  destruct a as [s|s| |s m e]; try destruct s; cbn; try congruence;
    intros _; cmp_cases.
Qed.

Lemma is_nan_Prim2SF x : is_nan x = false → Prim2SF x ≠ S754_nan.
Proof.
  unfold is_nan. rewrite FloatAxioms.eqb_spec. intros H E.
  rewrite E in H. discriminate H.
Qed.

Lemma float_leb_trans x y z :
  PrimFloat.leb x y = true → PrimFloat.leb y z = true →
  PrimFloat.leb x z = true.
Proof. rewrite !FloatAxioms.leb_spec. apply SFleb_trans. Qed.

Lemma float_ltb_leb x y : PrimFloat.ltb x y = true → PrimFloat.leb x y = true.
Proof. rewrite FloatAxioms.ltb_spec, FloatAxioms.leb_spec. apply SFltb_SFleb. Qed.

Lemma float_leb_refl x : is_nan x = false → PrimFloat.leb x x = true.
Proof.
intros Hx%is_nan_Prim2SF. rewrite FloatAxioms.leb_spec. unfold SFleb.
destruct (Prim2SF x) as [s|s| |s m e]; try destruct s; cbn; try done;
  cmp_cases.
Qed.

(** Without NaN the order is total: [not (x <= y)] is [y < x]. *)
Lemma float_not_leb x y :
  is_nan x = false → is_nan y = false →
  negb (PrimFloat.leb x y) = PrimFloat.ltb y x.
Proof.
  intros Hx Hy. rewrite FloatAxioms.ltb_spec, FloatAxioms.leb_spec.
  apply SFleb_SFltb; by apply is_nan_Prim2SF.
Qed.

Lemma is_finite_Prim2SF x :
  is_finite x =
  match Prim2SF x with
  | S754_zero _ | S754_finite _ _ _ => true
  | _ => false
  end.
Proof.
  unfold is_finite, is_nan, is_infinity.
  rewrite !FloatAxioms.eqb_spec, FloatAxioms.abs_spec.
  change (Prim2SF infinity) with (S754_infinity false).
  destruct (Prim2SF x) as [s|s| |s m e]; try destruct s; try reflexivity;
    unfold SFeqb; cbn; cmp_cases.
Qed.

Lemma Prim2SF_infinity x : Prim2SF x = S754_infinity false → x = infinity.
Proof. intros H. by rewrite <- (FloatAxioms.SF2Prim_Prim2SF x), H. Qed.

Lemma Prim2SF_neg_infinity x :
  Prim2SF x = S754_infinity true → x = neg_infinity.
Proof. intros H. by rewrite <- (FloatAxioms.SF2Prim_Prim2SF x), H. Qed.

(** [x > -inf] holds of the finite values and of [+inf]. *)
Lemma gt_neg_infinity x :
  x ≠ infinity → PrimFloat.ltb neg_infinity x = is_finite x.
Proof.
  intros Hx. rewrite FloatAxioms.ltb_spec, is_finite_Prim2SF.
  change (Prim2SF neg_infinity) with (S754_infinity true).
  destruct (Prim2SF x) as [s|s| |s m e] eqn:E; try destruct s; try reflexivity.
  by destruct Hx; apply Prim2SF_infinity.
Qed.

(** [x < inf] holds of the finite values and of [-inf]. *)
Lemma lt_infinity x :
  x ≠ neg_infinity → PrimFloat.ltb x infinity = is_finite x.
Proof.
  intros Hx. rewrite FloatAxioms.ltb_spec, is_finite_Prim2SF.
  change (Prim2SF infinity) with (S754_infinity false).
  destruct (Prim2SF x) as [s|s| |s m e] eqn:E; try destruct s; try reflexivity.
  by destruct Hx; apply Prim2SF_neg_infinity.
Qed.

End FloatOrder.

(** ** [rad_fac] *)

(** In binary64 the square of [sqrt(pi)] is not [pi]: the powers of
    [sqrt(pi)] that the last branch computes are powers of pi up to rounding
    only. *)
Lemma sqrt_pi_squared :
  PrimFloat.eqb (PrimFloat.mul (PrimFloat.sqrt np_pi) (PrimFloat.sqrt np_pi))
    np_pi = false.
Proof. reflexivity. Qed.

(** C8, as the program has it, in binary64 arithmetic.  For [dim = 1] the
    result is the number 2.0, whatever the radii are, and not an array.  For
    [dim >= 2] the result is an array of the shape of [r] with one entry for
    each entry [x] of [r]: [(2*pi)*x] for [dim = 2], [(4*pi)*(x**2)] for
    [dim = 3], and [((dim * x**(dim-1)) * sqrt(pi)**dim) / Gamma(dim/2.0 + 1.0)]
    for [dim >= 4] in the range of int64, where [sqrt(pi)**dim] stands for
    [pi^(dim/2)].  The products, the quotient, the sum and the square root are
    the IEEE operations, in this order; the powers and the Gamma function are
    what numpy and scipy compute. *)
Theorem rad_fac_formula (array_power scalar_power : float → Z → float)
    (gamma : float → float) (dim : Z) (r : ndarray) :
  1 ≤ dim →
  (dim = 1 → rad_fac array_power scalar_power gamma dim r = Scalar 2)
  ∧ (2 ≤ dim →
     ∃ a : ndarray,
       rad_fac array_power scalar_power gamma dim r = Array a
       ∧ shape a = shape r
       ∧ length (data a) = length (data r)
       ∧ (dim = 2 →
          ∀ (i : nat) (x : float), data r !! i = Some x →
            data a !! i = Some (PrimFloat.mul (PrimFloat.mul 2 np_pi) x))
       ∧ (dim = 3 →
          ∀ (i : nat) (x : float), data r !! i = Some x →
            data a !! i
            = Some (PrimFloat.mul (PrimFloat.mul 4 np_pi) (array_power x 2)))
       ∧ (4 ≤ dim → dim < 2 ^ 63 →
          ∀ (i : nat) (x : float), data r !! i = Some x →
            data a !! i
            = Some (PrimFloat.div
                      (PrimFloat.mul
                         (PrimFloat.mul (float_of_int dim)
                            (array_power x (dim - 1)))
                         (scalar_power (PrimFloat.sqrt np_pi) dim))
                      (gamma (PrimFloat.add
                                (PrimFloat.div (float_of_int dim) 2) 1))))).
Proof.
  intros Hdim. split; [by intros ->|]. intros H2. unfold rad_fac.
  destruct (Z.eqb_spec dim 1); [lia|].
  destruct (Z.eqb_spec dim 2) as [->|];
    [|destruct (Z.eqb_spec dim 3) as [->|]];
    (eexists; split; [reflexivity|]); split_and!;
    try done; try (by cbn; rewrite length_fmap); try (intros; lia);
    intros; cbn; rewrite list_lookup_fmap;
    match goal with H : data r !! _ = Some _ |- _ => by rewrite H end.
Qed.

(** For the radii [[0, 1, 2.5]] and [dim = 2], where no power and no Gamma
    value is computed: the factors are [0], [2*pi] and [2*pi*2.5]. *)
Lemma rad_fac_formula_witness :
  rad_fac (λ x _, x) (λ x _, x) (λ x, x) 2
    {| shape := [3%nat]; data := [0; 1; 2.5]%float |}
  = Array {| shape := [3%nat];
             data := [0; 0x1.921fb54442d18p+2; 0x1.f6a7a2955385ep+3]%float |}.
Proof.
  destruct (rad_fac_formula (λ x _, x) (λ x _, x) (λ x, x) 2
              {| shape := [3%nat]; data := [0; 1; 2.5]%float |} ltac:(lia))
    as [_ H].
  destruct (H ltac:(lia)) as ([sh d] & -> & Hsh & Hlen & H2 & _).
  cbn in Hsh, Hlen. subst sh.
  destruct d as [|a0 [|a1 [|a2 [|a3 d]]]]; try discriminate Hlen.
  pose proof (H2 eq_refl 0%nat _ eq_refl) as E0.
  pose proof (H2 eq_refl 1%nat _ eq_refl) as E1.
  pose proof (H2 eq_refl 2%nat _ eq_refl) as E2.
  cbn in E0, E1, E2.
  assert (a0 = 0%float) as -> by congruence.
  assert (a1 = 0x1.921fb54442d18p+2%float) as -> by congruence.
  assert (a2 = 0x1.f6a7a2955385ep+3%float) as -> by congruence.
  reflexivity.
Defined.

(** C8 as stated fails for [dim = 1]: for the radii [[0, 1, 2.5]] the program
    returns the number 2.0, not the array [[2.0, 2.0, 2.0]] of the shape of
    the radii, whatever the powers and the Gamma function are. *)
Lemma rad_fac_counterexample :
  (∀ array_power scalar_power gamma,
     rad_fac array_power scalar_power gamma 1
       {| shape := [3%nat]; data := [0; 1; 2.5]%float |} = Scalar 2)
  ∧ (∀ array_power scalar_power gamma,
       rad_fac array_power scalar_power gamma 1
         {| shape := [3%nat]; data := [0; 1; 2.5]%float |}
       ≠ Array (full [3%nat] 2)).
Proof. split; intros ap sp g; [reflexivity|discriminate]. Qed.

(** ** [set_len_anis] *)

(** The validation loop accepts exactly the lists of ratios that are all
    [> 0]; when it raises, the exception carries the whole list. *)
Lemma check_anis_ok (out_anis rest : list float) :
  check_anis out_anis rest = Ok () ↔
  Forall (λ ani, PrimFloat.ltb 0 ani = true) rest.
Proof.
  induction rest as [|ani rest IH]; cbn.
  - split; [constructor|done].
  - destruct (PrimFloat.ltb 0 ani) eqn:E; cbn.
    + rewrite IH. split; [by constructor|by inversion 1].
    + split; [discriminate|]. inversion 1; congruence.
Qed.

Lemma check_anis_err (out_anis rest : list float) (e : error) :
  check_anis out_anis rest = Err e ↔
  e = InvalidAnisotropy out_anis
  ∧ Exists (λ ani, PrimFloat.ltb 0 ani = false) rest.
Proof.
  induction rest as [|ani rest IH]; cbn.
  - split; [discriminate|]. intros [_ H]. inversion H.
  - destruct (PrimFloat.ltb 0 ani) eqn:E; cbn.
    + rewrite IH. split; intros [-> H]; split; try done.
      * by apply Exists_cons_tl.
      * inversion H; [congruence|done].
    + split.
      * intros [= <-]. split; [done|]. by apply Exists_cons_hd.
      * by intros [-> _].
Qed.

Lemma fill_anis_error ls_tmp rest out_anis e :
  fill_anis ls_tmp rest out_anis = Err e → e = IndexError.
Proof.
  revert out_anis. induction rest as [|i rest IH]; intros out_anis; cbn.
  - discriminate.
  - unfold index, setitem.
    destruct (ls_tmp !! i); cbn; [|by intros [= <-]].
    destruct (ls_tmp !! 0%nat); cbn; [|by intros [= <-]].
    case_match; cbn; [apply IH|by intros [= <-]].
Qed.

(** The loop invariant of [fill_anis]: the entries before [k] are kept and
    the following ones are the ratios of the length scales after the first. *)
Lemma fill_anis_spec (ls_tmp : list float) (l0 : float) (n : nat) :
  ls_tmp !! 0%nat = Some l0 →
  ∀ (k : nat) (out_anis : list float),
    length out_anis = (k + n)%nat →
    (S k + n ≤ length ls_tmp)%nat →
    fill_anis ls_tmp (seq (S k) n) out_anis =
    Ok (take k out_anis
        ++ ((λ x, PrimFloat.div x l0) <$> take n (drop (S k) ls_tmp))).
Proof.
  intros H0. induction n as [|n IH]; intros k out_anis Hlen Hle; cbn [seq fill_anis].
  - rewrite take_0, app_nil_r, take_ge by lia. reflexivity.
  - destruct (lookup_lt_is_Some_2 ls_tmp (S k)) as [lk Hk]; [lia|].
    unfold index at 1 2. rewrite Hk, H0. cbn [mbind result_bind].
    unfold setitem. replace (S k - 1)%nat with k by lia.
    destruct (Nat.ltb_spec k (length out_anis)) as [Hlt|]; [|lia].
    cbn [mbind result_bind].
    rewrite IH by (rewrite ?length_insert; lia).
    rewrite (take_S_r _ k (PrimFloat.div lk l0))
      by (by apply list_lookup_insert_eq).
    rewrite take_insert_ge by lia.
    rewrite (drop_S ls_tmp lk (S k) Hk). cbn [take fmap list_fmap].
    rewrite <- app_assoc. reflexivity.
Qed.

Section SetLenAnisFacts.
Context {Anis : Type} (set_anis : Z → Anis → option (list float)).

Lemma raw_anis_error dim len_scale anis e :
  raw_anis set_anis dim len_scale anis = Err e →
  ∀ ratios, e ≠ InvalidAnisotropy ratios.
Proof.
  unfold raw_anis. destruct (_ =? 1)%nat.
  - destruct (set_anis dim anis); intros [= <-]; discriminate.
  - destruct (_ <? dim).
    + unfold pad_edge. destruct (last _); cbn; [|intros [= <-]; discriminate].
      unfold zeros. destruct (_ <? 0); cbn; [intros [= <-]; discriminate|].
      intros H%fill_anis_error. by subst.
    + cbn. unfold zeros. destruct (_ <? 0); cbn; [intros [= <-]; discriminate|].
      intros H%fill_anis_error. by subst.
Qed.

(** When the ratios are computed, there is a first length scale. *)
Lemma raw_anis_first dim len_scale anis ratios :
  raw_anis set_anis dim len_scale anis = Ok ratios →
  ∃ l0, index (len_scale_tmp dim len_scale) 0 = Ok l0.
Proof.
  unfold raw_anis, index.
  destruct (len_scale_tmp dim len_scale) as [|l0 rest]; [|by eauto].
  cbn. change (Z.of_nat 0) with 0.
  destruct (Z.ltb_spec 0 dim); cbn; [discriminate|].
  unfold zeros. destruct (Z.ltb_spec (dim - 1) 0); [discriminate|lia].
Qed.

(** C3: [set_len_anis] raises [InvalidAnisotropy], carrying the computed
    ratios, if and only if the ratios were computed (from the length scales
    or by [set_anis]) and one of them is not [> 0]; when the ratios were
    computed and all of them are [> 0], the call returns them. *)
Theorem set_len_anis_validation (dim : Z) (len_scale : num_arg) (anis : Anis) :
  (∀ ratios,
     set_len_anis set_anis dim len_scale anis = Err (InvalidAnisotropy ratios)
     ↔ raw_anis set_anis dim len_scale anis = Ok ratios
       ∧ Exists (λ ani, PrimFloat.ltb 0 ani = false) ratios)
  ∧ (∀ ratios,
       raw_anis set_anis dim len_scale anis = Ok ratios →
       Forall (λ ani, PrimFloat.ltb 0 ani = true) ratios →
       ∃ out_len_scale,
         index (len_scale_tmp dim len_scale) 0 = Ok out_len_scale
         ∧ set_len_anis set_anis dim len_scale anis
           = Ok (out_len_scale, ratios)).
Proof.
  split; intros ratios.
  - unfold set_len_anis. split.
    + unfold index. destruct (_ !! 0%nat) as [l0|]; cbn; [|discriminate].
      destruct (raw_anis _ _ _ _) as [out_anis|e] eqn:E; cbn.
      * destruct (check_anis out_anis out_anis) as [[]|e] eqn:Hc; cbn;
          [discriminate|].
        apply check_anis_err in Hc as [-> Hc]. by intros [= <-].
      * intros [= ->]. by destruct (raw_anis_error _ _ _ _ E ratios).
    + intros [E Hex]. destruct (raw_anis_first _ _ _ _ E) as [l0 ->].
      rewrite E. cbn.
      destruct (check_anis ratios ratios) as [[]|e] eqn:Hc; cbn.
      * apply check_anis_ok in Hc.
        apply Exists_exists in Hex as (a & Ha & Hneg).
        rewrite Forall_forall in Hc. specialize (Hc a Ha). congruence.
      * by apply check_anis_err in Hc as [-> _].
  - intros E Hall. destruct (raw_anis_first _ _ _ _ E) as [l0 H0].
    exists l0. split; [done|]. unfold set_len_anis. rewrite H0, E. cbn.
    apply (check_anis_ok ratios) in Hall. by rewrite Hall.
Qed.
End SetLenAnisFacts.

Lemma set_len_anis_validation_witness :
  set_len_anis set_anis_model 3 (NumList [2; -4; 6]%float) (Num 1)
  = Err (InvalidAnisotropy [-2; 3]%float).
Proof.
  apply (proj1 (set_len_anis_validation set_anis_model 3
                  (NumList [2; -4; 6]%float) (Num 1))).
  split; [reflexivity|]. by apply Exists_cons_hd.
Defined.

Section SetLenAnisCases.
Context {Anis : Type} (set_anis : Z → Anis → option (list float)).

Lemma len_scale_tmp_length dim len_scale :
  0 ≤ dim → (length (len_scale_tmp dim len_scale) ≤ Z.to_nat dim)%nat.
Proof.
  intros Hdim. unfold len_scale_tmp, slice_to.
  destruct (Z.leb_spec 0 dim); [|lia]. rewrite length_take. lia.
Qed.

(** Several length scales: they are padded with their last value and
    divided by the first one. *)
Lemma raw_anis_multi dim len_scale anis l0 l1 rest e :
  1 ≤ dim →
  len_scale_tmp dim len_scale = l0 :: l1 :: rest →
  last (l0 :: l1 :: rest) = Some e →
  raw_anis set_anis dim len_scale anis =
  Ok ((λ x, PrimFloat.div x l0)
        <$> drop 1 ((l0 :: l1 :: rest)
                    ++ replicate (Z.to_nat dim - length (l0 :: l1 :: rest)) e)).
Proof.
  intros Hdim Hls Hlast.
  pose proof (len_scale_tmp_length dim len_scale ltac:(lia)) as Hlen.
  unfold raw_anis. rewrite Hls in Hlen |- *.
  set (ls := l0 :: l1 :: rest) in *.
  set (padded := ls ++ replicate (Z.to_nat dim - length ls) e).
  assert (length padded = Z.to_nat dim) as Hpad.
  { unfold padded. rewrite length_app, length_replicate. lia. }
  assert ((if Z.of_nat (length ls) <? dim
           then pad_edge ls (Z.to_nat (dim - Z.of_nat (length ls)))
           else Ok ls) = Ok padded) as ->.
  { destruct (Z.ltb_spec (Z.of_nat (length ls)) dim).
    - unfold pad_edge. rewrite Hlast. unfold padded. do 3 f_equal. lia.
    - unfold padded. replace (Z.to_nat dim - length ls)%nat with 0%nat by lia.
      cbn. by rewrite app_nil_r. }
  change ((length ls =? 1)%nat) with false. cbn [mbind result_bind].
  unfold zeros. destruct (Z.ltb_spec (dim - 1) 0); [lia|].
  cbn [mbind result_bind]. unfold range1.
  rewrite (fill_anis_spec padded l0 (Z.to_nat dim - 1)) by
    (rewrite ?length_replicate; (reflexivity || lia)).
  rewrite take_0. cbn [app]. f_equal. f_equal.
  apply take_ge. rewrite length_drop. lia.
Qed.

(** One length scale: the ratios are those of [set_anis]. *)
Lemma raw_anis_single dim len_scale anis x :
  len_scale_tmp dim len_scale = [x] →
  raw_anis set_anis dim len_scale anis =
  match set_anis dim anis with
  | Some out_anis => Ok out_anis
  | None => Err SetAnisRaised
  end.
Proof. intros Hls. unfold raw_anis. by rewrite Hls. Qed.

(** The result of [set_len_anis] once the length scales and the raw ratios
    are known. *)
Lemma set_len_anis_checked dim len_scale anis l0 ratios :
  index (len_scale_tmp dim len_scale) 0 = Ok l0 →
  raw_anis set_anis dim len_scale anis = Ok ratios →
  (Forall (λ ani, PrimFloat.ltb 0 ani = true) ratios →
   set_len_anis set_anis dim len_scale anis = Ok (l0, ratios))
  ∧ (Exists (λ ani, PrimFloat.ltb 0 ani = false) ratios →
     set_len_anis set_anis dim len_scale anis
     = Err (InvalidAnisotropy ratios)).
Proof.
  intros H0 Hraw. unfold set_len_anis. rewrite H0, Hraw. cbn. split.
  - intros Hall. apply (check_anis_ok ratios) in Hall. by rewrite Hall.
  - intros Hex.
    assert (check_anis ratios ratios = Err (InvalidAnisotropy ratios)) as ->; [|done].
    by apply check_anis_err.
Qed.
End SetLenAnisCases.

(** C1, as the program has it.  With [dim >= 1] and at least two length
    scales after the cut to [dim] entries, the sequence is padded on the right
    with its last value to length [dim], and the ratios are [dim - 1] values,
    [ratios[i] = padded[i+1] / padded[0]].  When every ratio is [> 0] the call
    returns the first length scale and these ratios; when one is not, it
    raises [InvalidAnisotropy] with these ratios.  Neither [anis] nor
    [set_anis] has an effect on the outcome. *)
Theorem set_len_anis_multi {Anis : Type}
    (set_anis : Z → Anis → option (list float))
    (dim : Z) (len_scale : num_arg) (anis : Anis)
    (l0 l1 : float) (rest : list float) :
  1 ≤ dim →
  len_scale_tmp dim len_scale = l0 :: l1 :: rest →
  ∃ (e : float) (padded ratios : list float),
    last (l0 :: l1 :: rest) = Some e
    ∧ padded = (l0 :: l1 :: rest)
               ++ replicate (Z.to_nat dim - length (l0 :: l1 :: rest)) e
    ∧ Z.of_nat (length padded) = dim
    ∧ Z.of_nat (length ratios) = dim - 1
    ∧ (∀ (i : nat) (x : float),
         padded !! S i = Some x → ratios !! i = Some (PrimFloat.div x l0))
    ∧ (Forall (λ ani, PrimFloat.ltb 0 ani = true) ratios →
       set_len_anis set_anis dim len_scale anis = Ok (l0, ratios))
    ∧ (Exists (λ ani, PrimFloat.ltb 0 ani = false) ratios →
       set_len_anis set_anis dim len_scale anis
       = Err (InvalidAnisotropy ratios))
    ∧ (∀ (Anis' : Type) (set_anis' : Z → Anis' → option (list float))
         (anis' : Anis'),
         set_len_anis set_anis' dim len_scale anis'
         = set_len_anis set_anis dim len_scale anis).
Proof.
  intros Hdim Hls.
  pose proof (len_scale_tmp_length dim len_scale ltac:(lia)) as Hlen.
  rewrite Hls in Hlen.
  assert (∃ e, last (l0 :: l1 :: rest) = Some e) as [e Hlast].
  { rewrite last_cons_cons, last_cons. destruct (last rest); eauto. }
  set (padded := (l0 :: l1 :: rest)
                 ++ replicate (Z.to_nat dim - length (l0 :: l1 :: rest)) e).
  exists e, padded, ((λ x, PrimFloat.div x l0) <$> drop 1 padded).
  assert (length padded = Z.to_nat dim) as Hpad.
  { unfold padded. rewrite length_app, length_replicate. lia. }
  destruct (set_len_anis_checked set_anis dim len_scale anis l0
              ((λ x, PrimFloat.div x l0) <$> drop 1 padded)) as [Hok Herr];
    [by rewrite Hls|by apply raw_anis_multi|].
  split_and!; try done.
  - lia.
  - rewrite length_fmap, length_drop. lia.
  - intros i x Hx. rewrite list_lookup_fmap, lookup_drop. cbn [Nat.add].
    by rewrite Hx.
  - intros Anis' set_anis' anis'. unfold set_len_anis.
    by rewrite (raw_anis_multi set_anis' dim len_scale anis' l0 l1 rest e),
      (raw_anis_multi set_anis dim len_scale anis l0 l1 rest e).
Qed.

Lemma set_len_anis_multi_witness :
  set_len_anis set_anis_model 3 (NumList [2; 4]%float) (Num 7)
  = Ok (2%float, [2; 2]%float).
Proof.
  destruct (set_len_anis_multi set_anis_model 3 (NumList [2; 4]%float) (Num 7)
              2 4 [] ltac:(lia) eq_refl)
    as (e & padded & ratios & He & -> & _ & Hlen & Hr & Hok & _).
  assert (e = 4%float) as -> by (cbn in He; congruence).
  destruct ratios as [|a [|b [|c ratios]]]; cbn in Hlen; try lia.
  pose proof (Hr 0%nat 4%float eq_refl) as Ha.
  pose proof (Hr 1%nat 4%float eq_refl) as Hb.
  cbn in Ha, Hb. assert (a = 2%float) as -> by congruence.
  assert (b = 2%float) as -> by congruence.
  apply Hok. by repeat constructor.
Defined.

(** C1 as stated fails on [set_len_anis(2, [1.0, -3.0], anis)]: two length
    scales are given and [dim >= 1], but the ratio [-3.0 / 1.0] is not [> 0]
    and the call raises instead of returning. *)
Lemma set_len_anis_multi_counterexample :
  len_scale_tmp 2 (NumList [1; -3]%float) = [1; -3]%float
  ∧ set_len_anis set_anis_model 2 (NumList [1; -3]%float) (Num 1)
    = Err (InvalidAnisotropy [-3]%float)
  ∧ ¬ ∃ out, set_len_anis set_anis_model 2 (NumList [1; -3]%float) (Num 1)
             = Ok out.
Proof. split_and!; [reflexivity..|]. intros [out H]. discriminate H. Qed.

(** C2, as the program has it.  With exactly one length scale after the cut
    to [dim] entries, the ratios are those [set_anis(dim, anis)] returns,
    whatever [len_scale] is.  When every one of them is [> 0] the call
    returns the length scale and these ratios; when one is not, it raises
    [InvalidAnisotropy] with these ratios; an exception of [set_anis] is
    passed on. *)
Theorem set_len_anis_single {Anis : Type}
    (set_anis : Z → Anis → option (list float))
    (dim : Z) (len_scale : num_arg) (anis : Anis) (x : float) :
  len_scale_tmp dim len_scale = [x] →
  (∀ ratios,
     set_anis dim anis = Some ratios →
     raw_anis set_anis dim len_scale anis = Ok ratios
     ∧ (Forall (λ ani, PrimFloat.ltb 0 ani = true) ratios →
        set_len_anis set_anis dim len_scale anis = Ok (x, ratios))
     ∧ (Exists (λ ani, PrimFloat.ltb 0 ani = false) ratios →
        set_len_anis set_anis dim len_scale anis
        = Err (InvalidAnisotropy ratios)))
  ∧ (set_anis dim anis = None →
     set_len_anis set_anis dim len_scale anis = Err SetAnisRaised).
Proof.
  intros Hls. split.
  - intros ratios Hset.
    assert (raw_anis set_anis dim len_scale anis = Ok ratios) as Hraw.
    { by rewrite (raw_anis_single set_anis dim len_scale anis x Hls), Hset. }
    split; [done|]. by apply set_len_anis_checked; [rewrite Hls|].
  - intros Hset. unfold set_len_anis.
    rewrite (raw_anis_single set_anis dim len_scale anis x Hls), Hset.
    by rewrite Hls.
Qed.

Lemma set_len_anis_single_witness :
  set_len_anis set_anis_model 3 (NumList [2]%float) (NumList [0.5]%float)
  = Ok (2%float, [1; 0.5]%float).
Proof.
  refine (proj1 (proj2 (proj1
    (set_len_anis_single set_anis_model 3 (NumList [2]%float) (NumList [0.5]%float)
       2 eq_refl) [1; 0.5]%float eq_refl)) _).
  repeat constructor.
Defined.

(** C2 as stated fails on [set_len_anis(2, [2.0], [-1.0])]: there is one
    length scale and [set_anis(2, [-1.0])] returns [[-1.0]], but the call
    raises instead of returning that result. *)
Lemma set_len_anis_single_counterexample :
  len_scale_tmp 2 (NumList [2]%float) = [2]%float
  ∧ set_anis_model 2 (NumList [-1]%float) = Some [-1]%float
  ∧ set_len_anis set_anis_model 2 (NumList [2]%float) (NumList [-1]%float)
    = Err (InvalidAnisotropy [-1]%float)
  ∧ ¬ ∃ out, set_len_anis set_anis_model 2 (NumList [2]%float) (NumList [-1]%float)
             = Ok out.
Proof. split_and!; [reflexivity..|]. intros [out H]. discriminate H. Qed.
(** ** [check_bounds] *)

Lemma py_le_incomparable a b :
  comparable a b = false → py_le a b = Err TypeError.
Proof. by destruct a, b. Qed.

(** Unless one of the two is NaN, [not (b <= a)] is [b > a]. *)
Lemma py_not_le_gt a b :
  is_nan_obj a = false → is_nan_obj b = false →
  py_le b a = Ok false ↔ py_gt b a = Ok true.
Proof.
  unfold py_gt. destruct a as [x|s], b as [y|t]; cbn; intros Ha Hb;
    try (split; discriminate).
  - rewrite <- (float_not_leb y x Hb Ha).
    destruct (PrimFloat.leb y x); cbn; split; intros H; try discriminate H; reflexivity.
  - unfold String.leb, String.ltb. rewrite (String.compare_antisym s t).
    destruct (String.compare t s); cbn; split; intros H; try discriminate H; reflexivity.
Qed.

Lemma check_bounds_two (b0 b1 : pyobj) :
  check_bounds [b0; b1] = le ← py_le b1 b0; Ok (negb le).
Proof. unfold check_bounds. cbn. destruct (py_le b1 b0) as [[]|]; reflexivity. Qed.

Lemma check_bounds_three (b0 b1 b2 : pyobj) :
  check_bounds [b0; b1; b2] =
  le ← py_le b1 b0; Ok (negb le && py_in b2 interval_types).
Proof.
  unfold check_bounds. cbn -[py_in].
  destruct (py_le b1 b0) as [[]|]; try reflexivity.
  cbn -[py_in]. by destruct (py_in b2 interval_types).
Qed.

Lemma py_in_interval_types (b : pyobj) :
  py_in b interval_types = true ↔ b ∈ interval_types.
Proof.
  unfold py_in, interval_types. rewrite existsb_exists. split.
  - intros (t & Ht & E).
    destruct b as [x|s], t as [y|t]; cbn in E; try discriminate E.
    + cbn in Ht. intuition discriminate.
    + apply String.eqb_eq in E. subst. by apply list_elem_of_In.
  - intros Hb. apply list_elem_of_In in Hb. exists b. split; [done|].
    destruct b as [x|s]; [cbn in Hb; intuition discriminate|].
    apply String.eqb_refl.
Qed.

Lemma py_le_error a b e : py_le a b = Err e → e = TypeError ∧ comparable a b = false.
Proof. destruct a, b; cbn; intros H; by inversion H. Qed.

(** C4, as the program has it.  The entries of [bounds] are numbers or
    strings.  When the length is 2 or 3 and [bounds[0]], [bounds[1]] are a
    number and a string, [check_bounds] raises [TypeError].  In every other
    case it returns, and it returns true exactly when the length is 2 or 3,
    [bounds[1] <= bounds[0]] is false, and for length 3 [bounds[2]] is one of
    "oo", "oc", "co", "cc".  Unless one of the two endpoints is NaN,
    [bounds[1] <= bounds[0]] is false exactly when [bounds[1] > bounds[0]], so
    that an interval of width zero is rejected; a NaN endpoint is accepted.
    [check_bounds([0,1])] is true, and [check_bounds([1,0])],
    [check_bounds([0,1,"xx"])] and [check_bounds([0,1,2,3])] are false. *)
Theorem check_bounds_spec (bounds : list pyobj) :
  (check_bounds bounds = Ok true ↔
     (length bounds = 2%nat ∨ length bounds = 3%nat)
     ∧ (∃ b0 b1, bounds !! 0%nat = Some b0 ∧ bounds !! 1%nat = Some b1
                 ∧ py_le b1 b0 = Ok false)
     ∧ (length bounds = 3%nat →
        ∃ b2, bounds !! 2%nat = Some b2 ∧ b2 ∈ interval_types))
  ∧ (check_bounds bounds = Err TypeError ↔
     (length bounds = 2%nat ∨ length bounds = 3%nat)
     ∧ ∃ b0 b1, bounds !! 0%nat = Some b0 ∧ bounds !! 1%nat = Some b1
                ∧ comparable b0 b1 = false)
  ∧ (check_bounds bounds = Ok true ∨ check_bounds bounds = Ok false
     ∨ check_bounds bounds = Err TypeError)
  ∧ (∀ b0 b1, is_nan_obj b0 = false → is_nan_obj b1 = false →
       py_le b1 b0 = Ok false ↔ py_gt b1 b0 = Ok true)
  ∧ (∀ x, is_nan x = false → check_bounds [PyFloat x; PyFloat x] = Ok false)
  ∧ check_bounds [PyFloat 0; PyFloat 1] = Ok true
  ∧ check_bounds [PyFloat 1; PyFloat 0] = Ok false
  ∧ check_bounds [PyFloat 0; PyFloat 1; PyStr "xx"] = Ok false
  ∧ check_bounds [PyFloat 0; PyFloat 1; PyFloat 2; PyFloat 3] = Ok false.
Proof.
  split_and!; try reflexivity; try (intros; by apply py_not_le_gt).
  - split.
    + intros H.
      destruct bounds as [|b0 [|b1 [|b2 [|b3 rest]]]]; try discriminate H.
      * rewrite check_bounds_two in H.
        destruct (py_le b1 b0) as [[]|] eqn:E; try discriminate H.
        split_and!; [by left|by exists b0, b1|discriminate].
      * rewrite check_bounds_three in H.
        destruct (py_le b1 b0) as [[]|] eqn:E; try discriminate H.
        cbn -[py_in] in H.
        destruct (py_in b2 interval_types) eqn:E2; try discriminate H.
        split_and!; [by right|by exists b0, b1|].
        intros _. exists b2. split; [done|]. by apply py_in_interval_types.
    + intros ([Hlen|Hlen] & (b0 & b1 & H0 & H1 & Hle) & Htag);
        destruct bounds as [|c0 [|c1 [|c2 [|c3 rest]]]]; try discriminate Hlen;
        cbn in H0, H1; simplify_eq.
      * rewrite check_bounds_two, Hle. reflexivity.
      * destruct (Htag eq_refl) as (b2 & H2 & Hin). cbn in H2. simplify_eq.
        apply py_in_interval_types in Hin.
        rewrite check_bounds_three, Hle. cbn -[py_in]. by rewrite Hin.
  - split.
    + intros H.
      destruct bounds as [|b0 [|b1 [|b2 [|b3 rest]]]]; try discriminate H.
      * rewrite check_bounds_two in H.
        destruct (py_le b1 b0) as [[]|] eqn:E; try discriminate H.
        apply py_le_error in E as [_ E]. split; [by left|].
        exists b0, b1. split_and!; try done.
        by destruct b0, b1.
      * rewrite check_bounds_three in H.
        destruct (py_le b1 b0) as [[]|] eqn:E; try discriminate H.
        apply py_le_error in E as [_ E]. split; [by right|].
        exists b0, b1. split_and!; try done.
        by destruct b0, b1.
    + intros ([Hlen|Hlen] & (b0 & b1 & H0 & H1 & Hc));
        destruct bounds as [|c0 [|c1 [|c2 [|c3 rest]]]]; try discriminate Hlen;
        cbn in H0, H1; simplify_eq.
      * rewrite check_bounds_two, py_le_incomparable; [done|].
        by destruct b0, b1.
      * rewrite check_bounds_three, py_le_incomparable; [done|].
        by destruct b0, b1.
  - destruct bounds as [|b0 [|b1 [|b2 [|b3 rest]]]]; try (right; left; reflexivity).
    + rewrite check_bounds_two.
      destruct (py_le b1 b0) as [[]|] eqn:E; cbn; auto.
      apply py_le_error in E as [-> _]. auto.
    + rewrite check_bounds_three.
      destruct (py_le b1 b0) as [[]|] eqn:E; cbn -[py_in]; auto.
      * destruct (py_in b2 interval_types); auto.
      * apply py_le_error in E as [-> _]. auto.
  - intros x Hx. rewrite check_bounds_two. cbn. by rewrite float_leb_refl.
Qed.

Lemma check_bounds_spec_witness :
  check_bounds [PyFloat 0; PyFloat 1; PyStr "oc"] = Ok true.
Proof.
  apply (proj1 (check_bounds_spec [PyFloat 0; PyFloat 1; PyStr "oc"])).
  split_and!.
  - by right.
  - by exists (PyFloat 0), (PyFloat 1).
  - intros _. exists (PyStr "oc"). split; [reflexivity|].
    unfold interval_types. by repeat constructor.
Defined.

(** C4 as stated fails on [[0, nan]]: [nan > 0] is false, but so is
    [nan <= 0], and the program returns true.  It fails on [[0, "a"]] as well,
    where comparing a string with a number raises [TypeError]. *)
Lemma check_bounds_counterexample :
  py_gt (PyFloat nan) (PyFloat 0) = Ok false
  ∧ check_bounds [PyFloat 0; PyFloat nan] = Ok true
  ∧ check_bounds [PyFloat 0; PyStr "a"] = Err TypeError.
Proof. repeat split. Qed.

(** ** [check_arg_in_bounds] *)

Section HeapSteps.
Implicit Types (h : heap) (l : loc).

Lemma bind_run {A B} (m : M A) (k : A → M B) h a h' :
  m h = (Ok a, h') → (m ≫= k) h = k a h'.
Proof. intros H. unfold mbind, M_bind. by rewrite H. Qed.

Lemma bind_fail {A B} (m : M A) (k : A → M B) h e h' :
  m h = (Err e, h') → (m ≫= k) h = (Err e, h').
Proof. intros H. unfold mbind, M_bind. by rewrite H. Qed.

Lemma deref_run h l xs : h !! l = Some xs → deref l h = (Ok xs, h).
Proof. intros H. unfold deref. by rewrite H. Qed.

Lemma getitem_run h l xs i x :
  h !! l = Some xs → xs !! i = Some x → getitem l i h = (Ok x, h).
Proof.
  intros H Hi. unfold getitem.
  rewrite (bind_run _ _ _ _ _ (deref_run _ _ _ H)).
  unfold lift, index. by rewrite Hi.
Qed.

Lemma append_run h l xs x :
  h !! l = Some xs → append l x h = (Ok (), <[l := xs ++ [x]]> h).
Proof. intros H. unfold append. by rewrite H. Qed.

Lemma is_closed_run h l xs k c0 c1 s :
  h !! l = Some xs → xs !! 2%nat = Some (PyStr (String c0 (String c1 s))) →
  (k = 0%nat ∨ k = 1%nat) →
  is_closed l k h = (Ok (is_c (if (k =? 0)%nat then c0 else c1)), h).
Proof.
  intros H H2 Hk. unfold is_closed.
  rewrite (bind_run _ _ _ _ _ (getitem_run _ _ _ _ _ H H2)).
  destruct Hk as [-> | ->]; cbn; unfold lift, mbind, M_bind, mret, M_ret, is_c; cbn.
  - by destruct (Ascii.eqb c0 "c").
  - by destruct (Ascii.eqb c1 "c").
Qed.
End HeapSteps.

Lemma check_arg_in_bounds_run (model : Model) (arg : string)
    (val : option pyobj) (h : heap) (ref : loc) (t : list pyobj)
    (lower upper v : float) (c0 c1 : ascii) :
  arg_bounds model !! arg = Some ref →
  h !! ref = Some t →
  bound_tuple t lower upper c0 c1 →
  resolve_val model arg val = Ok (PyFloat v) →
  check_arg_in_bounds model arg val h =
  (Ok (if upper_violated c1 v upper then (if is_c c1 then 3 else 4)
       else if lower_violated c0 v lower then (if is_c c0 then 1 else 2)
       else 0),
   <[fresh (dom h) := with_default_type t]> h).
Proof.
  intros Hkey Href Ht Hval. unfold check_arg_in_bounds. rewrite Hkey.
  rewrite (bind_run _ _ _ _ _ (deref_run _ _ _ Href)).
  set (bnd := fresh (dom h)).
  rewrite (bind_run _ _ h bnd (<[bnd := t]> h)) by reflexivity.
  rewrite (bind_run _ _ _ (PyFloat v) (<[bnd := t]> h))
    by (unfold lift; by rewrite Hval).
  rewrite (bind_run _ _ _ t (<[bnd := t]> h))
    by (apply deref_run, lookup_insert_eq).
  set (h2 := <[bnd := with_default_type t]> h).
  assert (∃ c0' c1' s, with_default_type t
            = [PyFloat lower; PyFloat upper; PyStr (String c0' (String c1' s))]
            ∧ c0' = c0 ∧ c1' = c1) as (c0' & c1' & s & Hfull & -> & ->).
  { destruct Ht; eauto 10. }
  assert (h2 !! bnd = Some (with_default_type t)) as Hbnd
    by apply lookup_insert_eq.
  rewrite (bind_run _ _ _ () h2).
  2:{ unfold with_default_type in h2 |- *. subst h2. destruct (_ =? 2)%nat.
      - rewrite (append_run _ _ t) by apply lookup_insert_eq.
        by rewrite insert_insert_eq.
      - reflexivity. }
  rewrite Hfull in Hbnd.
  rewrite (bind_run _ _ _ _ _ (is_closed_run _ _ _ 0 c0 c1 s Hbnd eq_refl (or_introl eq_refl))).
  cbn [Nat.eqb].
  rewrite (bind_run _ _ _
             (if lower_violated c0 v lower then (if is_c c0 then 1 else 2) else 0)
             h2).
  2:{ unfold lower_violated. destruct (is_c c0);
        rewrite (bind_run _ _ _ _ _ (getitem_run _ _ _ 0 _ Hbnd eq_refl));
        cbn; unfold lift, mbind, M_bind, mret, M_ret; cbn;
        by case_match. }
  rewrite (bind_run _ _ _ _ _
             (is_closed_run _ _ _ 1 c0 c1 s Hbnd eq_refl (or_intror eq_refl))).
  cbn [Nat.eqb].
  rewrite (bind_run _ _ _
             (if upper_violated c1 v upper then (if is_c c1 then 3 else 4)
              else if lower_violated c0 v lower
                   then (if is_c c0 then 1 else 2) else 0)
             h2); [reflexivity|].
  unfold upper_violated. destruct (is_c c1);
    rewrite (bind_run _ _ _ _ _ (getitem_run _ _ _ 1 _ Hbnd eq_refl));
    cbn; unfold lift, mbind, M_bind, mret, M_ret; cbn;
    by case_match.
Qed.

(** *** Computations that only read

    After the copy of the bound tuple has been completed, the rest of
    [check_arg_in_bounds] reads the heap and raises nothing but [IndexError]
    and [TypeError]. *)

Section ReadsOnly.
Lemma reads_only_ret {A} (a : A) : reads_only (mret a).
Proof. intros h. by split. Qed.

Lemma reads_only_bind {A B} (m : M A) (k : A → M B) :
  reads_only m → (∀ a, reads_only (k a)) → reads_only (m ≫= k).
Proof.
  intros Hm Hk h. destruct (Hm h) as [Hh He].
  unfold mbind, M_bind. destruct (m h) as [[a|e] h'] eqn:E; cbn in *; subst h'.
  - apply Hk.
  - split; [done|]. intros a [= ->]. by apply (He a).
Qed.

Lemma reads_only_lift {A} (r : result A) :
  (∀ a, r ≠ Err (UnknownArgument a)) → reads_only (lift r).
Proof. intros Hr h. by split. Qed.

Lemma reads_only_deref l : reads_only (deref l).
Proof. intros h. unfold deref. by destruct (h !! l). Qed.

Lemma index_known {A} (xs : list A) i a : index xs i ≠ Err (UnknownArgument a).
Proof. unfold index. by destruct (xs !! i). Qed.

Lemma py_getitem_known o i a : py_getitem o i ≠ Err (UnknownArgument a).
Proof. destruct o; cbn; [done|]. by destruct (String.get i s). Qed.

Lemma py_lt_known x y a : py_lt x y ≠ Err (UnknownArgument a).
Proof. by destruct x, y. Qed.

Lemma py_le_known x y a : py_le x y ≠ Err (UnknownArgument a).
Proof. by destruct x, y. Qed.

Lemma resolve_val_known model arg val a :
  resolve_val model arg val ≠ Err (UnknownArgument a).
Proof.
  destruct val; cbn; [done|]. unfold getattr. by destruct (attrs model !! arg).
Qed.

Lemma reads_only_getitem l i : reads_only (getitem l i).
Proof.
  apply reads_only_bind; [apply reads_only_deref|].
  intros xs. apply reads_only_lift. intros a. apply index_known.
Qed.

Lemma reads_only_is_closed l k : reads_only (is_closed l k).
Proof.
  apply reads_only_bind; [apply reads_only_getitem|]. intros t.
  apply reads_only_bind; [|intros c; apply reads_only_ret].
  apply reads_only_lift. intros a. apply py_getitem_known.
Qed.
End ReadsOnly.

Ltac reads_only_tac :=
  repeat first
    [ apply reads_only_ret
    | apply reads_only_getitem
    | apply reads_only_is_closed
    | apply reads_only_lift; intros ?;
      first [apply py_lt_known | apply py_le_known]
    | apply reads_only_bind; [|intros ?]
    | case_match ].

(** What [check_arg_in_bounds] does for a known argument, whatever the stored
    tuple and the value are: it copies the tuple to a new location, and leaves
    the heap at that unless the value is found, in which case the copy is
    completed; it does not raise [UnknownArgument]. *)
Lemma check_arg_in_bounds_known (model : Model) (arg : string)
    (val : option pyobj) (h : heap) (ref : loc) (t : list pyobj) :
  arg_bounds model !! arg = Some ref →
  h !! ref = Some t →
  (∀ a, (check_arg_in_bounds model arg val h).1 ≠ Err (UnknownArgument a))
  ∧ (check_arg_in_bounds model arg val h).2 =
    <[fresh (dom h) :=
        match resolve_val model arg val with
        | Ok _ => with_default_type t
        | Err _ => t
        end]> h.
Proof.
  intros Hkey Href. unfold check_arg_in_bounds. rewrite Hkey.
  rewrite (bind_run _ _ _ _ _ (deref_run _ _ _ Href)).
  set (bnd := fresh (dom h)).
  rewrite (bind_run _ _ h bnd (<[bnd := t]> h)) by reflexivity.
  destruct (resolve_val model arg val) as [v|e] eqn:Hval.
  - rewrite (bind_run _ _ _ v (<[bnd := t]> h)) by (unfold lift; by rewrite ?Hval).
    rewrite (bind_run _ _ _ t (<[bnd := t]> h))
      by (apply deref_run, lookup_insert_eq).
    rewrite (bind_run _ _ _ () (<[bnd := with_default_type t]> h)).
    2:{ unfold with_default_type. destruct (_ =? 2)%nat.
        - rewrite (append_run _ _ t) by apply lookup_insert_eq.
          by rewrite insert_insert_eq.
        - reflexivity. }
    match goal with
    | |- context [?m (<[bnd := with_default_type t]> h)] =>
        assert (reads_only m) as Hr by reads_only_tac
    end.
    destruct (Hr (<[bnd := with_default_type t]> h)) as [Hh He]. by split.
  - rewrite (bind_fail _ _ _ e (<[bnd := t]> h)) by (unfold lift; by rewrite ?Hval).
    split; [|done]. cbn. intros a [= ->].
    by apply (resolve_val_known model arg val a).
Qed.

(** C5, as the program has it.  For a known argument whose stored tuple is a
    pair or a triple of the data model, with "cc" for a pair, and a number
    [val] (given, or read from the model): the result is 3 when the upper
    endpoint is closed and [val > upper], 4 when it is open and
    [val >= upper]; when the upper check does not trigger, it is 1 when the
    lower endpoint is closed and [val < lower], and 2 when it is open and
    [val <= lower]; it is 0 when no check triggers.  With (0,1,"cc") and 0 the
    result is 0, with (0,1,"oo") and 0 it is 2, with (0,1,"oc") and 1 it is 0,
    with (0,1,"co") and 1 it is 4. *)
Theorem check_arg_in_bounds_classifies (model : Model) (arg : string)
    (val : option pyobj) (h : heap) (ref : loc) (t : list pyobj)
    (lower upper v : float) (c0 c1 : ascii) :
  arg_bounds model !! arg = Some ref →
  h !! ref = Some t →
  bound_tuple t lower upper c0 c1 →
  resolve_val model arg val = Ok (PyFloat v) →
  ∃ n : Z,
    (check_arg_in_bounds model arg val h).1 = Ok n
    ∧ (is_c c1 = true → PrimFloat.ltb upper v = true → n = 3)
    ∧ (is_c c1 = false → PrimFloat.leb upper v = true → n = 4)
    ∧ (upper_violated c1 v upper = false →
       is_c c0 = true → PrimFloat.ltb v lower = true → n = 1)
    ∧ (upper_violated c1 v upper = false →
       is_c c0 = false → PrimFloat.leb v lower = true → n = 2)
    ∧ (lower_violated c0 v lower = false →
       upper_violated c1 v upper = false → n = 0)
    ∧ (t = [PyFloat 0; PyFloat 1; PyStr "cc"] → v = 0%float → n = 0)
    ∧ (t = [PyFloat 0; PyFloat 1; PyStr "oo"] → v = 0%float → n = 2)
    ∧ (t = [PyFloat 0; PyFloat 1; PyStr "oc"] → v = 1%float → n = 0)
    ∧ (t = [PyFloat 0; PyFloat 1; PyStr "co"] → v = 1%float → n = 4).
Proof.
  intros Hkey Href Ht Hval.
  rewrite (check_arg_in_bounds_run _ _ _ _ _ _ _ _ _ _ _ Hkey Href Ht Hval).
  eexists. split; [reflexivity|].
  split_and!.
  1-5: unfold upper_violated, lower_violated; intros; repeat case_match; congruence.
  all: intros -> ->; inversion Ht; subst; reflexivity.
Qed.

Lemma check_arg_in_bounds_classifies_witness :
  (check_arg_in_bounds example_model "x" None
     (example_heap [PyFloat 0; PyFloat 1; PyStr "oc"])).1 = Ok 0.
Proof.
  destruct (check_arg_in_bounds_classifies example_model "x" None
              (example_heap [PyFloat 0; PyFloat 1; PyStr "oc"]) 1%positive
              [PyFloat 0; PyFloat 1; PyStr "oc"] 0 1 0.5 "o" "c"
              eq_refl eq_refl (bound_triple 0 1 "o" "c" "") eq_refl)
    as (n & Hn & _ & _ & _ & _ & H0 & _).
  rewrite Hn. f_equal. by apply H0.
Defined.

(** C5 as stated fails for the stored pair (1, 0) and the value 0.5: the
    lower endpoint is closed and [0.5 < 1], so 1 is claimed, but [0.5 > 0] as
    well and the program returns 3. *)
Lemma check_arg_in_bounds_classifies_counterexample :
  PrimFloat.ltb 0.5 1 = true
  ∧ (check_arg_in_bounds example_model "x" (Some (PyFloat 0.5))
       (example_heap [PyFloat 1; PyFloat 0])).1 = Ok 3
  ∧ (check_arg_in_bounds example_model "x" (Some (PyFloat 0.5))
       (example_heap [PyFloat 1; PyFloat 0])).1 ≠ Ok 1.
Proof. split_and!; [reflexivity| |]; by vm_compute. Qed.

(** C6: when both checks would trigger, the result is the case of the upper
    check, 3 at a closed and 4 at an open upper endpoint, and not 1 or 2.
    This happens only for bounds with [upper <= lower]. *)
Theorem check_arg_in_bounds_upper_wins (model : Model) (arg : string)
    (val : option pyobj) (h : heap) (ref : loc) (t : list pyobj)
    (lower upper v : float) (c0 c1 : ascii) :
  arg_bounds model !! arg = Some ref →
  h !! ref = Some t →
  bound_tuple t lower upper c0 c1 →
  resolve_val model arg val = Ok (PyFloat v) →
  lower_violated c0 v lower = true →
  upper_violated c1 v upper = true →
  (check_arg_in_bounds model arg val h).1 = Ok (if is_c c1 then 3 else 4)
  ∧ (check_arg_in_bounds model arg val h).1 ≠ Ok 1
  ∧ (check_arg_in_bounds model arg val h).1 ≠ Ok 2
  ∧ PrimFloat.leb upper lower = true.
Proof.
  intros Hkey Href Ht Hval Hlo Hup.
  rewrite (check_arg_in_bounds_run _ _ _ _ _ _ _ _ _ _ _ Hkey Href Ht Hval).
  rewrite Hup. cbn [fst]. split_and!; try (by destruct (is_c c1)).
  apply (float_leb_trans upper v lower).
  - unfold upper_violated in Hup. destruct (is_c c1); [by apply float_ltb_leb|done].
  - unfold lower_violated in Hlo. destruct (is_c c0); [by apply float_ltb_leb|done].
Qed.

Lemma check_arg_in_bounds_upper_wins_witness :
  (check_arg_in_bounds example_model "x" None
     (example_heap [PyFloat 1; PyFloat 0; PyStr "co"])).1 = Ok 4
  ∧ (check_arg_in_bounds example_model "x" None
       (example_heap [PyFloat 1; PyFloat 0; PyStr "co"])).1 ≠ Ok 1
  ∧ (check_arg_in_bounds example_model "x" None
       (example_heap [PyFloat 1; PyFloat 0; PyStr "co"])).1 ≠ Ok 2
  ∧ PrimFloat.leb 0 1 = true.
Proof.
  apply (check_arg_in_bounds_upper_wins example_model "x" None
           (example_heap [PyFloat 1; PyFloat 0; PyStr "co"]) 1%positive
           [PyFloat 1; PyFloat 0; PyStr "co"] 1 0 0.5 "c" "o");
    [reflexivity|reflexivity|constructor|reflexivity|reflexivity|reflexivity].
Defined.

(** C7: [check_arg_in_bounds] raises [UnknownArgument] if and only if [arg]
    is not a key of [model.arg_bounds], and then for [arg]; when [arg] is a
    key, the stored tuple is a pair or a triple of the data model and the
    value is a number (given, or read from the model), the call returns one
    of 0, 1, 2, 3, 4. *)
Theorem check_arg_in_bounds_unknown_argument (model : Model) (arg : string)
    (val : option pyobj) (h : heap) :
  ((∃ a, (check_arg_in_bounds model arg val h).1 = Err (UnknownArgument a))
   ↔ arg_bounds model !! arg = None)
  ∧ (arg_bounds model !! arg = None →
     (check_arg_in_bounds model arg val h).1 = Err (UnknownArgument arg))
  ∧ (∀ (ref : loc) (t : list pyobj) (lower upper v : float) (c0 c1 : ascii),
       arg_bounds model !! arg = Some ref →
       h !! ref = Some t →
       bound_tuple t lower upper c0 c1 →
       resolve_val model arg val = Ok (PyFloat v) →
       ∃ n : Z, (check_arg_in_bounds model arg val h).1 = Ok n
                ∧ n ∈ [0; 1; 2; 3; 4]).
Proof.
  assert (arg_bounds model !! arg = None →
          (check_arg_in_bounds model arg val h).1 = Err (UnknownArgument arg))
    as Hnone.
  { intros Hkey. unfold check_arg_in_bounds. by rewrite Hkey. }
  split_and!; [split| |].
  - intros [a Ha]. destruct (arg_bounds model !! arg) as [ref|] eqn:Hkey; [|done].
    exfalso. destruct (h !! ref) as [t|] eqn:Href.
    + by apply (proj1 (check_arg_in_bounds_known model arg val h ref t Hkey Href) a).
    + revert Ha. unfold check_arg_in_bounds. rewrite Hkey.
      rewrite (bind_fail _ _ h DanglingReference h); [done|].
      unfold deref. by rewrite Href.
  - intros Hkey. exists arg. by apply Hnone.
  - done.
  - intros ref t lower upper v c0 c1 Hkey Href Ht Hval.
    rewrite (check_arg_in_bounds_run _ _ _ _ _ _ _ _ _ _ _ Hkey Href Ht Hval).
    eexists. split; [reflexivity|].
    repeat case_match; set_solver.
Qed.

Lemma check_arg_in_bounds_unknown_argument_witness :
  (check_arg_in_bounds example_model "y" None
     (example_heap [PyFloat 0; PyFloat 1])).1 = Err (UnknownArgument "y")
  ∧ ∃ n : Z,
      (check_arg_in_bounds example_model "x" None
         (example_heap [PyFloat 0; PyFloat 1])).1 = Ok n
      ∧ n ∈ [0; 1; 2; 3; 4].
Proof.
  split.
  - apply (check_arg_in_bounds_unknown_argument example_model "y" None
             (example_heap [PyFloat 0; PyFloat 1])). reflexivity.
  - apply (proj2 (proj2 (check_arg_in_bounds_unknown_argument example_model "x"
             None (example_heap [PyFloat 0; PyFloat 1])))
             1%positive [PyFloat 0; PyFloat 1] 0%float 1%float 0.5%float
             "c"%char "c"%char);
      [reflexivity|reflexivity|constructor|reflexivity].
Defined.

(** C10: for a known argument whose stored tuple has two entries, the tuple
    and every other object of the heap are the same after the call as
    before.  The call allocates one new list, a copy of the tuple, and "cc"
    is appended to that copy. *)
Theorem check_arg_in_bounds_frame (model : Model) (arg : string)
    (val : option pyobj) (h : heap) (ref : loc) (t : list pyobj) :
  arg_bounds model !! arg = Some ref →
  h !! ref = Some t →
  length t = 2%nat →
  (check_arg_in_bounds model arg val h).2 !! ref = Some t
  ∧ (∀ l, is_Some (h !! l) →
          (check_arg_in_bounds model arg val h).2 !! l = h !! l)
  ∧ h !! fresh (dom h) = None
  ∧ (∀ v, resolve_val model arg val = Ok v →
          (check_arg_in_bounds model arg val h).2
          = <[fresh (dom h) := t ++ [PyStr "cc"]]> h).
Proof.
  intros Hkey Href Hlen.
  destruct (check_arg_in_bounds_known model arg val h ref t Hkey Href) as [_ ->].
  assert (h !! fresh (dom h) = None) as Hfresh.
  { apply not_elem_of_dom, is_fresh. }
  assert (∀ l x, is_Some (h !! l) → <[fresh (dom h) := x]> h !! l = h !! l) as Hframe.
  { intros l x [y Hl]. apply lookup_insert_ne. congruence. }
  split_and!; try done.
  - rewrite Hframe; [done|by eexists].
  - intros l Hl. by apply Hframe.
  - intros v ->. unfold with_default_type. by rewrite Hlen.
Qed.

Lemma check_arg_in_bounds_frame_witness :
  (check_arg_in_bounds example_model "x" None
     (example_heap [PyFloat 0; PyFloat 1])).2 !! 1%positive
  = Some [PyFloat 0; PyFloat 1].
Proof.
  exact (proj1 (check_arg_in_bounds_frame example_model "x" None
                  (example_heap [PyFloat 0; PyFloat 1]) 1%positive
                  [PyFloat 0; PyFloat 1] eq_refl eq_refl eq_refl)).
Defined.

(** ** [default_arg_from_bounds] *)

(** The value computed from a pair of numbers, whatever follows them in the
    tuple: the two tests of the program decide the case. *)
Lemma default_arg_from_bounds_pair (lower upper : float) (rest : list pyobj) :
  default_arg_from_bounds (PyFloat lower :: PyFloat upper :: rest) =
  Ok (PyFloat
        (if PrimFloat.ltb neg_infinity lower
         then if PrimFloat.ltb upper infinity
              then PrimFloat.div (PrimFloat.add lower upper) 2
              else PrimFloat.add lower 1
         else if PrimFloat.ltb upper infinity
              then PrimFloat.sub upper 1
              else 0%float)).
Proof.
  unfold default_arg_from_bounds, both_bounded, py_gt, mbind, result_bind. cbn.
  repeat match goal with
         | |- context [PrimFloat.ltb ?a ?b] => destruct (PrimFloat.ltb a b)
         end; reflexivity.
Qed.

(** C9, as the program has it.  The program tests [lower > -inf] and
    [upper < inf].  For a pair whose lower endpoint is not [+inf] and whose
    upper endpoint is not [-inf] these are the finiteness tests, and the
    result is the midpoint when both endpoints are finite, [lower + 1.0] when
    only the lower one is, [upper - 1.0] when only the upper one is, and [0.0]
    when neither is; NaN is not finite.  The order of the endpoints is not
    looked at.  [(0, 10)] gives [5.0],
    [(0, inf)] gives [1.0], [(-inf, 10)] gives [9.0] and [(-inf, inf)] gives
    [0.0]. *)
Theorem default_arg_from_bounds_finite (lower upper : float) (rest : list pyobj) :
  lower ≠ infinity → upper ≠ neg_infinity →
  default_arg_from_bounds (PyFloat lower :: PyFloat upper :: rest) =
    Ok (PyFloat
          (match is_finite lower, is_finite upper with
           | true, true => PrimFloat.div (PrimFloat.add lower upper) 2
           | true, false => PrimFloat.add lower 1
           | false, true => PrimFloat.sub upper 1
           | false, false => 0%float
           end))
  ∧ PrimFloat.ltb neg_infinity lower = is_finite lower
  ∧ PrimFloat.ltb upper infinity = is_finite upper
  ∧ default_arg_from_bounds [PyFloat 0; PyFloat 10] = Ok (PyFloat 5)
  ∧ default_arg_from_bounds [PyFloat 0; PyFloat infinity] = Ok (PyFloat 1)
  ∧ default_arg_from_bounds [PyFloat neg_infinity; PyFloat 10] = Ok (PyFloat 9)
  ∧ default_arg_from_bounds [PyFloat neg_infinity; PyFloat infinity] =
      Ok (PyFloat 0).
Proof.
  intros Hl Hu.
  split; [|split_and!; try reflexivity;
           [by apply gt_neg_infinity|by apply lt_infinity]].
  rewrite default_arg_from_bounds_pair.
  rewrite (gt_neg_infinity lower Hl), (lt_infinity upper Hu).
  by destruct (is_finite lower), (is_finite upper).
Qed.

Lemma default_arg_from_bounds_finite_witness :
  default_arg_from_bounds [PyFloat 2; PyFloat 1; PyStr "oc"] = Ok (PyFloat 1.5).
Proof.
  refine (proj1 (default_arg_from_bounds_finite 2 1 [PyStr "oc"] _ _)).
  - intros H. apply (f_equal is_finite) in H. vm_compute in H. discriminate H.
  - intros H. apply (f_equal is_finite) in H. vm_compute in H. discriminate H.
Defined.

(** C9 as stated fails on the pair [(inf, 5)]: the lower endpoint is not
    finite and the upper one is, so [upper - 1.0 = 4.0] is claimed, but
    [inf > -inf] holds and the program returns the midpoint [(inf + 5) / 2],
    which is [inf]. *)
Lemma default_arg_from_bounds_counterexample :
  is_finite infinity = false ∧ is_finite 5 = true
  ∧ default_arg_from_bounds [PyFloat infinity; PyFloat 5] = Ok (PyFloat infinity)
  ∧ default_arg_from_bounds [PyFloat infinity; PyFloat 5]
    ≠ Ok (PyFloat (PrimFloat.sub 5 1)).
Proof.
  repeat split. intros H.
  apply (f_equal (λ r, match r with
                       | Ok (PyFloat x) => is_finite x
                       | _ => true
                       end)) in H.
  vm_compute in H. discriminate H.
Qed.

(** * Further properties *)

(** ** NaN and division by zero *)

Section FloatEdge.

Lemma is_nan_true_Prim2SF x : is_nan x = true → Prim2SF x = S754_nan.
Proof.
  unfold is_nan. rewrite FloatAxioms.eqb_spec. intros H.
  destruct (Prim2SF x) as [s|s| |s m e] eqn:E; [| |done|];
    rewrite SFeqb_refl in H by discriminate; discriminate H.
Qed.

(** No comparison with NaN holds. *)
Lemma float_ltb_nan_l x y : is_nan x = true → PrimFloat.ltb x y = false.
Proof.
  intros Hx%is_nan_true_Prim2SF. by rewrite FloatAxioms.ltb_spec, Hx.
Qed.

Lemma float_ltb_nan_r x y : is_nan y = true → PrimFloat.ltb x y = false.
Proof.
  intros Hy%is_nan_true_Prim2SF. rewrite FloatAxioms.ltb_spec, Hy.
  unfold SFltb. by destruct (Prim2SF x).
Qed.

Lemma float_leb_nan_l x y : is_nan x = true → PrimFloat.leb x y = false.
Proof.
  intros Hx%is_nan_true_Prim2SF. by rewrite FloatAxioms.leb_spec, Hx.
Qed.

Lemma float_leb_nan_r x y : is_nan y = true → PrimFloat.leb x y = false.
Proof.
  intros Hy%is_nan_true_Prim2SF. rewrite FloatAxioms.leb_spec, Hy.
  unfold SFleb. by destruct (Prim2SF x).
Qed.

(** A quotient with a NaN operand is not [> 0]. *)
Lemma float_div_nan_l x y :
  is_nan x = true → PrimFloat.ltb 0 (PrimFloat.div x y) = false.
Proof.
  intros Hx%is_nan_true_Prim2SF.
  by rewrite FloatAxioms.ltb_spec, FloatAxioms.div_spec, Hx.
Qed.

Lemma float_div_nan_r x y :
  is_nan y = true → PrimFloat.ltb 0 (PrimFloat.div x y) = false.
Proof.
  intros Hy%is_nan_true_Prim2SF.
  rewrite FloatAxioms.ltb_spec, FloatAxioms.div_spec, Hy.
  by destruct (Prim2SF x).
Qed.

(** A number [> 0] divided by [+0.0] is [+inf], divided by [-0.0] is [-inf]. *)
Lemma float_div_zero x :
  PrimFloat.ltb 0 x = true → PrimFloat.div x 0 = infinity.
Proof.
  rewrite FloatAxioms.ltb_spec. intros Hx. apply Prim2SF_infinity.
  rewrite FloatAxioms.div_spec.
  change (Prim2SF 0) with (S754_zero false) in *.
  by destruct (Prim2SF x) as [s|[]| |[] m e].
Qed.

Lemma float_div_neg_zero x :
  PrimFloat.ltb 0 x = true → PrimFloat.div x (-0) = neg_infinity.
Proof.
  rewrite FloatAxioms.ltb_spec. intros Hx. apply Prim2SF_neg_infinity.
  rewrite FloatAxioms.div_spec.
  change (Prim2SF 0) with (S754_zero false) in *.
  change (Prim2SF (-0)) with (S754_zero true).
  by destruct (Prim2SF x) as [s|[]| |[] m e].
Qed.

End FloatEdge.

(** ** More on [set_len_anis] *)

Section SetLenAnisMore.
Context {Anis : Type} (set_anis : Z → Anis → option (list float)).

(** The cut of a non-empty sequence to [dim >= 1] entries is not empty. *)
Lemma len_scale_tmp_first dim len_scale x xs :
  1 ≤ dim → atleast_1d len_scale = x :: xs →
  ∃ rest, len_scale_tmp dim len_scale = x :: rest.
Proof.
  intros Hdim Hls. unfold len_scale_tmp, slice_to. rewrite Hls.
  destruct (Z.leb_spec 0 dim); [|lia].
  destruct (Z.to_nat dim) as [|n] eqn:E; [lia|]. cbn. eauto.
Qed.

(** The cut is a prefix of what was given. *)
Lemma len_scale_tmp_prefix dim len_scale :
  len_scale_tmp dim len_scale `prefix_of` atleast_1d len_scale.
Proof.
  unfold len_scale_tmp, slice_to. destruct (0 <=? dim); apply prefix_take.
Qed.

(** X1: for [dim >= 1] and at least one length scale, [set_len_anis] returns,
    or raises [InvalidAnisotropy], or passes on an exception of [set_anis],
    which it calls only when one length scale is left after the cut.  None of
    the indexing, padding and allocation steps fails. *)
Theorem set_len_anis_valid_input (dim : Z) (len_scale : num_arg) (anis : Anis)
    (x : float) (xs : list float) :
  1 ≤ dim →
  atleast_1d len_scale = x :: xs →
  (∃ ratios, set_len_anis set_anis dim len_scale anis = Ok (x, ratios))
  ∨ (∃ ratios,
       set_len_anis set_anis dim len_scale anis
       = Err (InvalidAnisotropy ratios))
  ∨ (set_len_anis set_anis dim len_scale anis = Err SetAnisRaised
     ∧ len_scale_tmp dim len_scale = [x]
     ∧ set_anis dim anis = None).
Proof.
  intros Hdim Hls.
  destruct (len_scale_tmp_first dim len_scale x xs Hdim Hls) as [rest Htmp].
  assert (∀ ratios,
            raw_anis set_anis dim len_scale anis = Ok ratios →
            (∃ r, set_len_anis set_anis dim len_scale anis = Ok (x, r))
            ∨ (∃ r, set_len_anis set_anis dim len_scale anis
                    = Err (InvalidAnisotropy r))) as Hchecked.
  { intros ratios Hraw. unfold set_len_anis. rewrite Htmp, Hraw. cbn.
    destruct (check_anis ratios ratios) as [[]|e] eqn:Hc; cbn; [by eauto|].
    apply check_anis_err in Hc as [-> _]. by eauto. }
  destruct rest as [|l1 rest].
  - pose proof (raw_anis_single set_anis dim len_scale anis x Htmp) as Hraw.
    destruct (set_anis dim anis) as [ratios|] eqn:Hset.
    + destruct (Hchecked ratios Hraw); auto.
    + right; right. split_and!; try done.
      unfold set_len_anis. by rewrite Htmp, Hraw.
  - assert (∃ e, last (x :: l1 :: rest) = Some e) as [e Hlast].
    { rewrite last_cons_cons, last_cons. destruct (last rest); eauto. }
    pose proof (raw_anis_multi set_anis dim len_scale anis x l1 rest e
                  Hdim Htmp Hlast) as Hraw.
    destruct (Hchecked _ Hraw); auto.
Qed.

(** X2: whatever [set_len_anis] returns, for any [dim]: the length scale is
    the first one that was given, and every ratio is [> 0]. *)
Theorem set_len_anis_returns (dim : Z) (len_scale : num_arg) (anis : Anis)
    (out_len_scale : float) (out_anis : list float) :
  set_len_anis set_anis dim len_scale anis = Ok (out_len_scale, out_anis) →
  atleast_1d len_scale !! 0%nat = Some out_len_scale
  ∧ Forall (λ ani, PrimFloat.ltb 0 ani = true) out_anis
  ∧ raw_anis set_anis dim len_scale anis = Ok out_anis.
Proof.
  unfold set_len_anis, index.
  destruct (len_scale_tmp dim len_scale !! 0%nat) as [l0|] eqn:H0; cbn;
    [|discriminate].
  destruct (raw_anis _ _ _ _) as [ratios|] eqn:Hraw; cbn; [|discriminate].
  destruct (check_anis ratios ratios) as [[]|] eqn:Hc; cbn; [|discriminate].
  intros [= <- <-]. split_and!; [|by apply (check_anis_ok ratios)|done].
  by apply (prefix_lookup_Some _ _ _ _ H0), len_scale_tmp_prefix.
Qed.

(** X3: without a length scale there is nothing to return: [set_len_anis]
    raises [IndexError] when no entry is left after the cut, which is the case
    for [dim = 0] and for an empty [len_scale]; [set_anis] is not called.  For
    negative [dim], when the cut leaves two entries or more, the allocation of
    the ratios raises. *)
Theorem set_len_anis_nothing_left (dim : Z) (len_scale : num_arg) (anis : Anis) :
  (len_scale_tmp dim len_scale = [] →
   set_len_anis set_anis dim len_scale anis = Err IndexError)
  ∧ set_len_anis set_anis 0 len_scale anis = Err IndexError
  ∧ set_len_anis set_anis dim (NumList []) anis = Err IndexError
  ∧ (dim < 0 → (2 ≤ length (len_scale_tmp dim len_scale))%nat →
     set_len_anis set_anis dim len_scale anis = Err NegativeDimensions).
Proof.
  assert (∀ d ls, len_scale_tmp d ls = [] →
                  set_len_anis set_anis d ls anis = Err IndexError) as Hempty.
  { intros d ls H. unfold set_len_anis. by rewrite H. }
  split_and!.
  - apply Hempty.
  - apply Hempty. unfold len_scale_tmp, slice_to. cbn. apply take_0.
  - apply Hempty. unfold len_scale_tmp, slice_to. cbn.
    destruct (0 <=? dim); apply take_nil.
  - intros Hdim Hlen. unfold set_len_anis, raw_anis.
    destruct (len_scale_tmp dim len_scale) as [|l0 [|l1 rest]] eqn:E;
      cbn in Hlen; try lia.
    cbn [index lookup list_lookup mbind result_bind].
    change ((length (l0 :: l1 :: rest) =? 1)%nat) with false. cbn iota.
    destruct (Z.ltb_spec (Z.of_nat (length (l0 :: l1 :: rest))) dim); [lia|].
    cbn [mbind result_bind]. unfold zeros.
    destruct (Z.ltb_spec (dim - 1) 0); [done|lia].
Qed.

End SetLenAnisMore.

Lemma set_len_anis_valid_input_witness :
  (∃ ratios,
     set_len_anis set_anis_model 2 (NumList [3; 6; 9]%float) (Num 1)
     = Ok (3%float, ratios))
  ∨ (∃ ratios,
       set_len_anis set_anis_model 2 (NumList [3; 6; 9]%float) (Num 1)
       = Err (InvalidAnisotropy ratios))
  ∨ (set_len_anis set_anis_model 2 (NumList [3; 6; 9]%float) (Num 1)
     = Err SetAnisRaised
     ∧ len_scale_tmp 2 (NumList [3; 6; 9]%float) = [3%float]
     ∧ set_anis_model 2 (Num 1) = None).
Proof.
  apply (set_len_anis_valid_input set_anis_model 2 (NumList [3; 6; 9]%float)
           (Num 1) 3 [6; 9]%float); [lia|reflexivity].
Defined.

Lemma set_len_anis_returns_witness :
  atleast_1d (NumList [2; 4]%float) !! 0%nat = Some 2%float
  ∧ Forall (λ ani, PrimFloat.ltb 0 ani = true) [2; 2]%float
  ∧ raw_anis set_anis_model 3 (NumList [2; 4]%float) (Num 7)
    = Ok [2; 2]%float.
Proof.
  apply (set_len_anis_returns set_anis_model 3 (NumList [2; 4]%float) (Num 7)
           2 [2; 2]%float). reflexivity.
Defined.

Lemma set_len_anis_nothing_left_witness :
  set_len_anis set_anis_model (-1) (NumList [1; 2; 3]%float) (Num 1)
  = Err NegativeDimensions.
Proof.
  apply (set_len_anis_nothing_left set_anis_model (-1)
           (NumList [1; 2; 3]%float) (Num 1)); [lia|vm_compute; lia].
Defined.

Section SetLenAnisScales.
Context {Anis : Type} (set_anis : Z → Anis → option (list float)).

(** A list that fits into [dim] entries is not cut. *)
Lemma len_scale_tmp_fits dim (xs : list float) :
  Z.of_nat (length xs) ≤ dim → len_scale_tmp dim (NumList xs) = xs.
Proof.
  intros H. unfold len_scale_tmp, slice_to. cbn.
  destruct (Z.leb_spec 0 dim); [|lia]. apply take_ge. lia.
Qed.

(** The outcome for two length scales or more, from the padded sequence. *)
Lemma set_len_anis_padded dim len_scale anis l0 l1 rest e :
  1 ≤ dim →
  len_scale_tmp dim len_scale = l0 :: l1 :: rest →
  last (l0 :: l1 :: rest) = Some e →
  set_len_anis set_anis dim len_scale anis =
  let ratios :=
    (λ x, PrimFloat.div x l0)
      <$> (l1 :: rest)
          ++ replicate (Z.to_nat dim - length (l0 :: l1 :: rest)) e in
  _ ← check_anis ratios ratios; Ok (l0, ratios).
Proof.
  intros Hdim Htmp Hlast. unfold set_len_anis.
  rewrite (raw_anis_multi set_anis dim len_scale anis l0 l1 rest e) by done.
  by rewrite Htmp.
Qed.

(** X4: a list with too few length scales stands for the list filled up with
    its last value ("[l_1, l_2] in 3D is equal to [l_1, l_2, l_2]"): with two
    entries or more, adding copies of the last entry, up to [dim] entries in
    all, changes nothing. *)
Theorem set_len_anis_fill_up (dim : Z) (xs : list float) (e : float) (k : nat)
    (anis : Anis) :
  (2 ≤ length xs)%nat →
  last xs = Some e →
  Z.of_nat (length xs + k) ≤ dim →
  set_len_anis set_anis dim (NumList (xs ++ replicate k e)) anis
  = set_len_anis set_anis dim (NumList xs) anis.
Proof.
  intros Hlen Hlast Hdim.
  destruct xs as [|l0 [|l1 rest]]; cbn in Hlen; try lia.
  cbn [length Nat.add] in Hdim.
  rewrite (set_len_anis_padded dim (NumList (l0 :: l1 :: rest)) anis
             l0 l1 rest e); [|lia|apply len_scale_tmp_fits; cbn [length]; lia|done].
  rewrite (set_len_anis_padded dim (NumList ((l0 :: l1 :: rest) ++ replicate k e))
             anis l0 l1 (rest ++ replicate k e) e); [|lia| |].
  - cbn zeta.
    assert ((l1 :: rest ++ replicate k e)
            ++ replicate
                 (Z.to_nat dim - length (l0 :: l1 :: rest ++ replicate k e)) e
            = (l1 :: rest)
              ++ replicate (Z.to_nat dim - length (l0 :: l1 :: rest)) e) as ->;
      [|done].
    cbn [length app]. f_equal.
    rewrite length_app, length_replicate, <- app_assoc, <- replicate_add.
    do 2 f_equal. lia.
  - apply len_scale_tmp_fits. cbn [length app].
    rewrite length_app, length_replicate. lia.
  - change (l0 :: l1 :: rest ++ replicate k e)
      with ((l0 :: l1 :: rest) ++ replicate k e).
    rewrite last_app, Hlast. destruct k; [done|].
    by rewrite replicate_S_end, last_snoc.
Qed.

(** X5: with two length scales or more after the cut, a NaN among them makes
    a ratio NaN, and the call raises [InvalidAnisotropy]. *)
Theorem set_len_anis_nan (dim : Z) (len_scale : num_arg) (anis : Anis)
    (l0 l1 : float) (rest : list float) :
  1 ≤ dim →
  len_scale_tmp dim len_scale = l0 :: l1 :: rest →
  Exists (λ x, is_nan x = true) (l0 :: l1 :: rest) →
  ∃ ratios,
    set_len_anis set_anis dim len_scale anis = Err (InvalidAnisotropy ratios).
Proof.
  intros Hdim Htmp Hnan.
  assert (∃ e, last (l0 :: l1 :: rest) = Some e) as [e Hlast].
  { rewrite last_cons_cons, last_cons. destruct (last rest); eauto. }
  rewrite (set_len_anis_padded dim len_scale anis l0 l1 rest e) by done.
  cbn zeta. eexists.
  match goal with
  | |- context [check_anis ?r ?r] =>
      assert (check_anis r r = Err (InvalidAnisotropy r)) as ->; [|reflexivity]
  end.
  apply check_anis_err. split; [done|].
  apply Exists_fmap, Exists_app. left.
  apply Exists_cons in Hnan as [H0|Hnan].
  - apply Exists_cons_hd. by apply float_div_nan_r.
  - eapply Exists_impl; [done|]. intros x Hx. by apply float_div_nan_l.
Qed.

(** A constant map gives a constant list. *)
Lemma fmap_constant {A B} (f : A → B) (c : B) (l : list A) :
  Forall (λ x, f x = c) l → f <$> l = replicate (length l) c.
Proof. induction 1 as [|x l Hx _ IH]; cbn; [done|]. by rewrite Hx, IH. Qed.

Lemma last_Forall {A} (P : A → Prop) (l : list A) (e : A) :
  Forall P l → last l = Some e → P e.
Proof.
  intros Hall [l' ->]%last_Some. apply Forall_app in Hall as [_ He].
  by inversion He.
Qed.

(** X6: a first length scale of zero is not rejected.  With two length
    scales or more after the cut, the first one [+0.0] and the others [> 0],
    the call returns [dim - 1] ratios [+inf]; with the first one [-0.0] the
    ratios are [-inf] and the call raises. *)
Theorem set_len_anis_zero_first (dim : Z) (len_scale : num_arg) (anis : Anis)
    (l0 l1 : float) (rest : list float) :
  1 ≤ dim →
  len_scale_tmp dim len_scale = l0 :: l1 :: rest →
  Forall (λ x, PrimFloat.ltb 0 x = true) (l1 :: rest) →
  (l0 = 0%float →
   set_len_anis set_anis dim len_scale anis
   = Ok (0%float, replicate (Z.to_nat dim - 1) infinity))
  ∧ (l0 = (-0)%float →
     set_len_anis set_anis dim len_scale anis
     = Err (InvalidAnisotropy (replicate (Z.to_nat dim - 1) neg_infinity))).
Proof.
  intros Hdim Htmp Hpos.
  pose proof (len_scale_tmp_length dim len_scale ltac:(lia)) as Hlen.
  rewrite Htmp in Hlen. cbn [length] in Hlen.
  assert (∃ e, last (l0 :: l1 :: rest) = Some e) as [e Hlast].
  { rewrite last_cons_cons, last_cons. destruct (last rest); eauto. }
  assert (PrimFloat.ltb 0 e = true) as He.
  { rewrite last_cons_cons in Hlast. by apply (last_Forall _ _ _ Hpos). }
  rewrite (set_len_anis_padded dim len_scale anis l0 l1 rest e) by done.
  cbn zeta.
  set (tail := (l1 :: rest)
               ++ replicate (Z.to_nat dim - length (l0 :: l1 :: rest)) e).
  assert (Forall (λ x, PrimFloat.ltb 0 x = true) tail) as Htail.
  { apply Forall_app. split; [done|]. by apply Forall_replicate. }
  assert (length tail = (Z.to_nat dim - 1)%nat) as Hlt.
  { unfold tail. rewrite length_app, length_replicate. cbn [length]. lia. }
  split; intros ->.
  - rewrite (fmap_constant _ infinity tail), Hlt.
    2:{ eapply Forall_impl; [done|]. intros x Hx. by apply float_div_zero. }
    assert (check_anis (replicate (Z.to_nat dim - 1) infinity)
              (replicate (Z.to_nat dim - 1) infinity) = Ok ()) as ->; [|done].
    apply check_anis_ok. by apply Forall_replicate.
  - rewrite (fmap_constant _ neg_infinity tail), Hlt.
    2:{ eapply Forall_impl; [done|]. intros x Hx. by apply float_div_neg_zero. }
    assert (check_anis (replicate (Z.to_nat dim - 1) neg_infinity)
              (replicate (Z.to_nat dim - 1) neg_infinity)
            = Err (InvalidAnisotropy
                     (replicate (Z.to_nat dim - 1) neg_infinity))) as ->;
      [|done].
    apply check_anis_err. split; [done|].
    destruct (Z.to_nat dim - 1)%nat as [|n] eqn:E; [unfold tail in Hlt; cbn in Hlt; lia|].
    by apply Exists_cons_hd.
Qed.
End SetLenAnisScales.

Lemma set_len_anis_fill_up_witness :
  set_len_anis set_anis_model 3 (NumList ([2; 4]%float ++ replicate 1 4%float))
    (Num 7)
  = set_len_anis set_anis_model 3 (NumList [2; 4]%float) (Num 7).
Proof.
  apply (set_len_anis_fill_up set_anis_model 3 [2; 4]%float 4%float 1 (Num 7));
    [cbn; lia|reflexivity|cbn; lia].
Defined.

Lemma set_len_anis_nan_witness :
  ∃ ratios,
    set_len_anis set_anis_model 3 (NumList [2; nan]%float) (Num 7)
    = Err (InvalidAnisotropy ratios).
Proof.
  apply (set_len_anis_nan set_anis_model 3 (NumList [2; nan]%float) (Num 7)
           2 nan []); [lia|reflexivity|].
  apply Exists_cons_tl, Exists_cons_hd. reflexivity.
Defined.

Lemma set_len_anis_zero_first_witness :
  set_len_anis set_anis_model 3 (NumList [0; 5]%float) (Num 7)
  = Ok (0%float, replicate (Z.to_nat 3 - 1) infinity).
Proof.
  apply (set_len_anis_zero_first set_anis_model 3 (NumList [0; 5]%float)
           (Num 7) 0 5 []); [lia|reflexivity| |reflexivity].
  by repeat constructor.
Defined.

(** X17: length scales beyond the first [dim] are ignored, for every
    [dim >= 0]; so in one dimension only the first length scale counts and
    the ratios are those of [set_anis]. *)
Theorem set_len_anis_cut {Anis : Type}
    (set_anis : Z → Anis → option (list float))
    (dim : Z) (xs ys : list float) (anis : Anis) :
  0 ≤ dim →
  length xs = Z.to_nat dim →
  set_len_anis set_anis dim (NumList (xs ++ ys)) anis
  = set_len_anis set_anis dim (NumList xs) anis.
Proof.
  intros Hdim Hlen.
  assert (len_scale_tmp dim (NumList (xs ++ ys)) = len_scale_tmp dim (NumList xs))
    as Htmp.
  { unfold len_scale_tmp, slice_to. cbn. destruct (Z.leb_spec 0 dim); [|lia].
    rewrite <- Hlen. by rewrite take_app_length, firstn_all. }
  unfold set_len_anis, raw_anis. by rewrite Htmp.
Qed.

Lemma set_len_anis_cut_witness :
  set_len_anis set_anis_model 1 (NumList ([5]%float ++ [6; 7]%float)) (Num 2)
  = set_len_anis set_anis_model 1 (NumList [5]%float) (Num 2).
Proof.
  apply (set_len_anis_cut set_anis_model 1 [5]%float [6; 7]%float (Num 2));
    [lia|reflexivity].
Defined.

(** ** More on [check_arg_in_bounds] *)

(** X7: no call of [check_arg_in_bounds] changes or removes an object of the
    heap, whatever the model, the argument and the value are and whether the
    call returns or raises.  For an unknown argument the heap is left as it
    is; otherwise at most one object is added, at a new location. *)
Theorem check_arg_in_bounds_no_write (model : Model) (arg : string)
    (val : option pyobj) (h : heap) :
  (∀ l xs, h !! l = Some xs →
           (check_arg_in_bounds model arg val h).2 !! l = Some xs)
  ∧ (arg_bounds model !! arg = None →
     (check_arg_in_bounds model arg val h).2 = h)
  ∧ (∀ l, is_Some ((check_arg_in_bounds model arg val h).2 !! l) →
          is_Some (h !! l) ∨ l = fresh (dom h)).
Proof.
  destruct (arg_bounds model !! arg) as [ref|] eqn:Hkey.
  - destruct (h !! ref) as [t|] eqn:Href.
    + destruct (check_arg_in_bounds_known model arg val h ref t Hkey Href)
        as [_ ->].
      split_and!; [|done|].
      * intros l xs Hl. rewrite lookup_insert_ne; [done|].
        intros <-. by rewrite (not_elem_of_dom_1 h (fresh (dom h)))
          in Hl by apply is_fresh.
      * intros l Hl. destruct (decide (l = fresh (dom h))) as [->|Hne];
          [by right|left]. by rewrite lookup_insert_ne in Hl.
    + assert (check_arg_in_bounds model arg val h = (Err DanglingReference, h))
        as ->.
      { unfold check_arg_in_bounds. rewrite Hkey.
        apply bind_fail. unfold deref. by rewrite Href. }
      split_and!; auto.
  - assert (check_arg_in_bounds model arg val h
            = (Err (UnknownArgument arg), h)) as ->.
    { unfold check_arg_in_bounds. by rewrite Hkey. }
    split_and!; auto.
Qed.

Section CheckArgCases.
Context (model : Model) (arg : string) (val : option pyobj) (h : heap).
Context (ref : loc) (t : list pyobj).
Hypothesis Hkey : arg_bounds model !! arg = Some ref.
Hypothesis Href : h !! ref = Some t.

Lemma getitem_fail (h' : heap) l xs i :
  h' !! l = Some xs → xs !! i = None → getitem l i h' = (Err IndexError, h').
Proof.
  intros H Hi. unfold getitem.
  rewrite (bind_run _ _ _ _ _ (deref_run _ _ _ H)).
  unfold lift, index. by rewrite Hi.
Qed.

(** The outcome when the tag cannot be read: the first thing the checks do
    is to look at [bnd[2][0]]. *)
Lemma check_arg_in_bounds_no_tag (v : pyobj) (e : error) :
  resolve_val model arg val = Ok v →
  (∀ h', h' !! fresh (dom h) = Some (with_default_type t) →
         is_closed (fresh (dom h)) 0 h' = (Err e, h')) →
  (check_arg_in_bounds model arg val h).1 = Err e.
Proof.
  intros Hval Hclosed. unfold check_arg_in_bounds. rewrite Hkey.
  rewrite (bind_run _ _ _ _ _ (deref_run _ _ _ Href)).
  set (bnd := fresh (dom h)) in *.
  rewrite (bind_run _ _ h bnd (<[bnd := t]> h)) by reflexivity.
  rewrite (bind_run _ _ _ v (<[bnd := t]> h)) by (unfold lift; by rewrite Hval).
  rewrite (bind_run _ _ _ t (<[bnd := t]> h))
    by (apply deref_run, lookup_insert_eq).
  rewrite (bind_run _ _ _ () (<[bnd := with_default_type t]> h)).
  2:{ unfold with_default_type. destruct (_ =? 2)%nat.
      - rewrite (append_run _ _ t) by apply lookup_insert_eq.
        by rewrite insert_insert_eq.
      - reflexivity. }
  by rewrite (bind_fail _ _ _ e (<[bnd := with_default_type t]> h))
    by apply Hclosed, lookup_insert_eq.
Qed.

(** X8: for a known argument, when no value is given and the model has no
    attribute of that name, the call raises [AttributeError]. *)
Theorem check_arg_in_bounds_no_attribute :
  val = None →
  attrs model !! arg = None →
  (check_arg_in_bounds model arg val h).1 = Err (AttributeError arg).
Proof.
  intros -> Hattr. unfold check_arg_in_bounds. rewrite Hkey.
  rewrite (bind_run _ _ _ _ _ (deref_run _ _ _ Href)).
  rewrite (bind_run _ _ h (fresh (dom h)) (<[fresh (dom h) := t]> h))
    by reflexivity.
  rewrite (bind_fail _ _ _ (AttributeError arg) (<[fresh (dom h) := t]> h));
    [done|].
  unfold lift, resolve_val, getattr. by rewrite Hattr.
Qed.

(** X12: stored tuples that are no bounds.  With a value at hand, a tuple of
    fewer than two entries and a tuple whose third entry is the empty string
    raise [IndexError], and a tuple whose third entry is a number raises
    [TypeError]; a tag of one character raises [IndexError] once the lower
    check is done. *)
Theorem check_arg_in_bounds_malformed (v : pyobj) :
  resolve_val model arg val = Ok v →
  ((length t < 2)%nat →
   (check_arg_in_bounds model arg val h).1 = Err IndexError)
  ∧ (t !! 2%nat = Some (PyStr "") →
     (check_arg_in_bounds model arg val h).1 = Err IndexError)
  ∧ (∀ x, t !! 2%nat = Some (PyFloat x) →
          (check_arg_in_bounds model arg val h).1 = Err TypeError)
  ∧ (∀ lower upper v' c,
       t = [PyFloat lower; PyFloat upper; PyStr (String c "")] →
       v = PyFloat v' →
       (check_arg_in_bounds model arg val h).1 = Err IndexError).
Proof.
  intros Hval.
  assert (∀ i, (3 ≤ length t)%nat ∨ (length t < 2)%nat →
               with_default_type t !! i = t !! i) as Hsame.
  { intros i Hlen. unfold with_default_type.
    destruct (Nat.eqb_spec (length t) 2); [lia|done]. }
  split_and!.
  - intros Hlen. apply (check_arg_in_bounds_no_tag v _ Hval).
    intros h' Hbnd. unfold is_closed. apply bind_fail.
    apply (getitem_fail _ _ _ _ Hbnd). rewrite Hsame by auto.
    apply lookup_ge_None. lia.
  - intros H2. apply (check_arg_in_bounds_no_tag v _ Hval).
    intros h' Hbnd. unfold is_closed.
    rewrite (bind_run _ _ _ (PyStr "") h'); [done|].
    apply (getitem_run _ _ _ _ _ Hbnd). rewrite Hsame; [done|].
    left. by apply lookup_lt_Some in H2.
  - intros x H2. apply (check_arg_in_bounds_no_tag v _ Hval).
    intros h' Hbnd. unfold is_closed.
    rewrite (bind_run _ _ _ (PyFloat x) h'); [done|].
    apply (getitem_run _ _ _ _ _ Hbnd). rewrite Hsame; [done|].
    left. by apply lookup_lt_Some in H2.
  - intros lower upper v' c Ht ->. clear Hsame. unfold check_arg_in_bounds.
    rewrite Hkey. rewrite (bind_run _ _ _ _ _ (deref_run _ _ _ Href)).
    set (bnd := fresh (dom h)).
    rewrite (bind_run _ _ h bnd (<[bnd := t]> h)) by reflexivity.
    rewrite (bind_run _ _ _ (PyFloat v') (<[bnd := t]> h))
      by (unfold lift; by rewrite Hval).
    set (h1 := <[bnd := t]> h).
    assert (h1 !! bnd = Some t) as Hbnd by apply lookup_insert_eq.
    assert (t !! 0%nat = Some (PyFloat lower)) as H0 by (by rewrite Ht).
    assert (t !! 2%nat = Some (PyStr (String c ""))) as H2 by (by rewrite Ht).
    rewrite (bind_run _ _ _ _ _ (deref_run _ _ _ Hbnd)).
    replace (length t =? 2)%nat with false by (by rewrite Ht).
    rewrite (bind_run _ _ _ () h1) by reflexivity.
    assert (is_closed bnd 0 h1 = (Ok (is_c c), h1)) as Hc0.
    { unfold is_closed.
      rewrite (bind_run _ _ _ _ _ (getitem_run _ _ _ 2 _ Hbnd H2)).
      cbn. unfold lift, mbind, M_bind, mret, M_ret, is_c. cbn.
      by destruct (Ascii.eqb c "c"). }
    rewrite (bind_run _ _ _ _ _ Hc0).
    rewrite (bind_run _ _ _
               (if lower_violated c v' lower
                then (if is_c c then 1 else 2) else 0) h1).
    2:{ unfold lower_violated. destruct (is_c c);
          rewrite (bind_run _ _ _ _ _ (getitem_run _ _ _ 0 _ Hbnd H0));
          cbn; unfold lift, mbind, M_bind, mret, M_ret; cbn; by case_match. }
    rewrite (bind_fail _ _ _ IndexError h1); [done|].
    unfold is_closed.
    rewrite (bind_run _ _ _ _ _ (getitem_run _ _ _ 2 _ Hbnd H2)).
    reflexivity.
Qed.
End CheckArgCases.

Lemma check_arg_in_bounds_no_attribute_witness :
  (check_arg_in_bounds example_model "x" None
     (example_heap [PyFloat 0; PyFloat 1])).1 = Ok 0
  ∧ (check_arg_in_bounds
       {| arg_bounds := arg_bounds example_model; attrs := ∅ |} "x" None
       (example_heap [PyFloat 0; PyFloat 1])).1 = Err (AttributeError "x").
Proof.
  split; [reflexivity|].
  apply (check_arg_in_bounds_no_attribute
           {| arg_bounds := arg_bounds example_model; attrs := ∅ |} "x" None
           (example_heap [PyFloat 0; PyFloat 1]) 1%positive
           [PyFloat 0; PyFloat 1]); reflexivity.
Defined.

Lemma check_arg_in_bounds_malformed_witness :
  (check_arg_in_bounds example_model "x" None
     (example_heap [PyFloat 0; PyFloat 1; PyStr "c"])).1 = Err IndexError.
Proof.
  apply (proj2 (proj2 (proj2
           (check_arg_in_bounds_malformed example_model "x" None
              (example_heap [PyFloat 0; PyFloat 1; PyStr "c"]) 1%positive
              [PyFloat 0; PyFloat 1; PyStr "c"] eq_refl eq_refl (PyFloat 0.5)
              eq_refl))) 0%float 1%float 0.5%float "c"%char); reflexivity.
Defined.

Section CheckArgMeaning.
Context (model : Model) (arg : string) (val : option pyobj) (h : heap).
Context (ref : loc) (t : list pyobj) (lower upper v : float) (c0 c1 : ascii).
Hypothesis Hkey : arg_bounds model !! arg = Some ref.
Hypothesis Href : h !! ref = Some t.
Hypothesis Hval : resolve_val model arg val = Ok (PyFloat v).

(** Without NaN, a check does not trigger exactly when the value is on the
    right side of the endpoint. *)
Lemma lower_not_violated :
  is_nan lower = false → is_nan v = false →
  negb (lower_violated c0 v lower)
  = if is_c c0 then PrimFloat.leb lower v else PrimFloat.ltb lower v.
Proof.
  intros Hl Hv. unfold lower_violated. destruct (is_c c0).
  - rewrite <- (float_not_leb lower v Hl Hv). by destruct (PrimFloat.leb lower v).
  - by apply float_not_leb.
Qed.

Lemma upper_not_violated :
  is_nan upper = false → is_nan v = false →
  negb (upper_violated c1 v upper)
  = if is_c c1 then PrimFloat.leb v upper else PrimFloat.ltb v upper.
Proof.
  intros Hu Hv. unfold upper_violated. destruct (is_c c1).
  - rewrite <- (float_not_leb v upper Hv Hu). by destruct (PrimFloat.leb v upper).
  - by apply float_not_leb.
Qed.

(** X9: what the result 0 means.  For a stored pair or triple of the data
    model and numbers none of which is NaN, the result is 0 if and only if
    the value lies in the interval, an endpoint belonging to the interval
    when it is closed. *)
Theorem check_arg_in_bounds_zero_iff :
  bound_tuple t lower upper c0 c1 →
  is_nan lower = false → is_nan upper = false → is_nan v = false →
  (check_arg_in_bounds model arg val h).1 = Ok 0
  ↔ in_interval c0 c1 v lower upper = true.
Proof.
  intros Ht Hl Hu Hv.
  rewrite (check_arg_in_bounds_run _ _ _ _ _ _ _ _ _ _ _ Hkey Href Ht Hval).
  unfold in_interval.
  rewrite <- (lower_not_violated Hl Hv), <- (upper_not_violated Hu Hv).
  cbn [fst].
  destruct (upper_violated c1 v upper), (lower_violated c0 v lower),
    (is_c c0), (is_c c1); cbn; split; intros H; try done; by inversion H.
Qed.

(** X10: a NaN value passes every check, and NaN endpoints let every value
    pass: the result is 0. *)
Theorem check_arg_in_bounds_nan :
  bound_tuple t lower upper c0 c1 →
  is_nan v = true ∨ (is_nan lower = true ∧ is_nan upper = true) →
  (check_arg_in_bounds model arg val h).1 = Ok 0.
Proof.
  intros Ht Hnan.
  rewrite (check_arg_in_bounds_run _ _ _ _ _ _ _ _ _ _ _ Hkey Href Ht Hval).
  assert (upper_violated c1 v upper = false) as ->.
  { unfold upper_violated.
    destruct Hnan as [Hv|[_ Hu]], (is_c c1);
      auto using float_ltb_nan_l, float_ltb_nan_r, float_leb_nan_l,
        float_leb_nan_r. }
  assert (lower_violated c0 v lower = false) as ->; [|done].
  unfold lower_violated.
  destruct Hnan as [Hv|[Hl _]], (is_c c0);
    auto using float_ltb_nan_l, float_ltb_nan_r, float_leb_nan_l,
      float_leb_nan_r.
Qed.

(** A tuple of numbers that [check_bounds] accepts is a pair or a triple of
    the data model, with [upper <= lower] false. *)
Lemma check_bounds_bound_tuple :
  check_bounds t = Ok true →
  t !! 0%nat = Some (PyFloat lower) → t !! 1%nat = Some (PyFloat upper) →
  PrimFloat.leb upper lower = false
  ∧ ∃ c0' c1', bound_tuple t lower upper c0' c1'.
Proof.
  clear Hkey Href Hval. intros Hcb H0 H1.
  destruct t as [|b0 [|b1 [|b2 [|b3 rest]]]]; try discriminate Hcb;
    cbn in H0, H1; simplify_eq.
  - rewrite check_bounds_two in Hcb. cbn in Hcb.
    destruct (PrimFloat.leb upper lower); [discriminate Hcb|].
    split; [done|]. eexists _, _. constructor.
  - rewrite check_bounds_three in Hcb. cbn -[py_in] in Hcb.
    destruct (PrimFloat.leb upper lower); [discriminate Hcb|].
    split; [done|]. cbn -[py_in] in Hcb.
    assert (py_in b2 interval_types = true) as Hin
      by (by destruct (py_in b2 interval_types)).
    apply py_in_interval_types in Hin. unfold interval_types in Hin.
    repeat (apply elem_of_cons in Hin as [->|Hin]; [eexists _, _; constructor|]).
    by apply elem_of_nil in Hin.
Qed.

(** X11: bounds that [check_bounds] has accepted.  For a stored tuple of
    numbers that [check_bounds] accepts and a number [val], the call returns;
    the two checks do not both trigger, so that the result is 1 or 2 exactly
    when the lower check triggers, 3 or 4 exactly when the upper check
    triggers, and 0 otherwise. *)
Theorem check_arg_in_bounds_checked_bounds :
  check_bounds t = Ok true →
  t !! 0%nat = Some (PyFloat lower) → t !! 1%nat = Some (PyFloat upper) →
  ∃ (c0' c1' : ascii) (n : Z),
    bound_tuple t lower upper c0' c1'
    ∧ (check_arg_in_bounds model arg val h).1 = Ok n
    ∧ ¬ (lower_violated c0' v lower = true ∧ upper_violated c1' v upper = true)
    ∧ (lower_violated c0' v lower = true ↔ n = if is_c c0' then 1 else 2)
    ∧ (upper_violated c1' v upper = true ↔ n = if is_c c1' then 3 else 4)
    ∧ (lower_violated c0' v lower = false ∧ upper_violated c1' v upper = false
       ↔ n = 0).
Proof.
  intros Hcb H0 H1.
  destruct (check_bounds_bound_tuple Hcb H0 H1) as (Hle & c0' & c1' & Ht).
  exists c0', c1'. eexists. split; [done|].
  rewrite (check_arg_in_bounds_run _ _ _ _ _ _ _ _ _ _ _ Hkey Href Ht Hval).
  split; [reflexivity|].
  assert (¬ (lower_violated c0' v lower = true
             ∧ upper_violated c1' v upper = true)) as Hboth.
  { intros [Hlo Hup].
    assert (PrimFloat.leb upper lower = true); [|congruence].
    apply (float_leb_trans upper v lower).
    - unfold upper_violated in Hup.
      destruct (is_c c1'); [by apply float_ltb_leb|done].
    - unfold lower_violated in Hlo.
      destruct (is_c c0'); [by apply float_ltb_leb|done]. }
  split; [done|].
  destruct (lower_violated c0' v lower), (upper_violated c1' v upper),
    (is_c c0'), (is_c c1'); try (by destruct Hboth);
    split_and!; split; (done || (intros []; done) || intros _; done).
Qed.
End CheckArgMeaning.

Lemma check_arg_in_bounds_zero_iff_witness :
  (check_arg_in_bounds example_model "x" None
     (example_heap [PyFloat 0; PyFloat 1; PyStr "oc"])).1 = Ok 0
  ↔ in_interval "o" "c" 0.5 0 1 = true.
Proof.
  apply (check_arg_in_bounds_zero_iff example_model "x" None
           (example_heap [PyFloat 0; PyFloat 1; PyStr "oc"]) 1%positive
           [PyFloat 0; PyFloat 1; PyStr "oc"] 0 1 0.5 "o" "c"
           eq_refl eq_refl eq_refl (bound_triple 0 1 "o" "c" ""));
    reflexivity.
Defined.

Lemma check_arg_in_bounds_nan_witness :
  (check_arg_in_bounds example_model "x" (Some (PyFloat nan))
     (example_heap [PyFloat 0; PyFloat 1; PyStr "oo"])).1 = Ok 0.
Proof.
  apply (check_arg_in_bounds_nan example_model "x" (Some (PyFloat nan))
           (example_heap [PyFloat 0; PyFloat 1; PyStr "oo"]) 1%positive
           [PyFloat 0; PyFloat 1; PyStr "oo"] 0 1 nan "o" "o"
           eq_refl eq_refl eq_refl (bound_triple 0 1 "o" "o" "")).
  by left.
Defined.

Lemma check_arg_in_bounds_checked_bounds_witness :
  ∃ (c0' c1' : ascii) (n : Z),
    bound_tuple [PyFloat 0; PyFloat 1; PyStr "co"] 0 1 c0' c1'
    ∧ (check_arg_in_bounds example_model "x" (Some (PyFloat 1))
         (example_heap [PyFloat 0; PyFloat 1; PyStr "co"])).1 = Ok n
    ∧ ¬ (lower_violated c0' 1 0 = true ∧ upper_violated c1' 1 1 = true)
    ∧ (lower_violated c0' 1 0 = true ↔ n = if is_c c0' then 1 else 2)
    ∧ (upper_violated c1' 1 1 = true ↔ n = if is_c c1' then 3 else 4)
    ∧ (lower_violated c0' 1 0 = false ∧ upper_violated c1' 1 1 = false
       ↔ n = 0).
Proof.
  apply (check_arg_in_bounds_checked_bounds example_model "x"
           (Some (PyFloat 1))
           (example_heap [PyFloat 0; PyFloat 1; PyStr "co"]) 1%positive
           [PyFloat 0; PyFloat 1; PyStr "co"] 0 1 1
           eq_refl eq_refl eq_refl); reflexivity.
Defined.

(** ** More on [default_arg_from_bounds] and [check_bounds] *)

(** X13: [default_arg_from_bounds] reads the first two entries only, so that
    the interval type has no effect on the default.  It raises [IndexError]
    on no entry and on a single number, and [TypeError] when one of the two
    entries is a string. *)
Theorem default_arg_from_bounds_entries :
  (∀ b0 b1 rest,
     default_arg_from_bounds (b0 :: b1 :: rest)
     = default_arg_from_bounds [b0; b1])
  ∧ default_arg_from_bounds [] = Err IndexError
  ∧ (∀ x, default_arg_from_bounds [PyFloat x] = Err IndexError)
  ∧ (∀ s rest, default_arg_from_bounds (PyStr s :: rest) = Err TypeError)
  ∧ (∀ x s rest,
       default_arg_from_bounds (PyFloat x :: PyStr s :: rest) = Err TypeError).
Proof.
  split_and!; try done.
  - intros x. unfold default_arg_from_bounds, both_bounded, py_gt, mbind,
      result_bind. cbn.
    repeat match goal with
           | |- context [PrimFloat.ltb ?a ?b] => destruct (PrimFloat.ltb a b)
           end; reflexivity.
  - intros x s rest. unfold default_arg_from_bounds, both_bounded, py_gt, mbind,
      result_bind. cbn.
    repeat match goal with
           | |- context [PrimFloat.ltb ?a ?b] => destruct (PrimFloat.ltb a b)
           end; reflexivity.
Qed.

(** X14: [check_bounds] does not look at the type of the endpoints.  A pair
    of strings is accepted exactly when the first one is before the second
    one, and [default_arg_from_bounds] raises [TypeError] on it. *)
Theorem check_bounds_strings (s t : string) :
  (check_bounds [PyStr s; PyStr t] = Ok true ↔ String.ltb s t = true)
  ∧ default_arg_from_bounds [PyStr s; PyStr t] = Err TypeError.
Proof.
  split; [|done]. rewrite check_bounds_two. cbn.
  unfold String.leb, String.ltb. rewrite (String.compare_antisym s t).
  destruct (String.compare t s); cbn; split; intros H; by inversion H.
Qed.
